(** * Uganda map data pipelines: the fiber and schools ETL scripts

    A shallow embedding of the two Node.js ETL scripts of the repository
    (the telecom-fiber script with [postJSONWithRetry],
    [elementToGeoJSONFeature] and [buildFeatureCollection]; the schools
    script with [parseCSV], [guessOwnership], [enrichProperties],
    [coerceToPoints], [tryLoadOfficialDataset] and [main]) and the
    properties their specification states about them.

    Modelling conventions.
    - A JavaScript string is a sequence of UTF-16 code units.  The model
      covers the strings whose code units lie in U+0000..U+00FF, one
      [ascii] per code unit; [toLowerCase], [trim], [\s] and [\b] act on
      that range exactly as ECMAScript defines them.
    - A JavaScript value is a [json] term.  An object is the list of its
      own enumerable properties in insertion order; the prototype chain
      (inherited members such as [constructor], the [__proto__] accessor)
      and the numeric-keys-first enumeration rule are outside the model.
    - JavaScript numbers are an abstract type [num] with the handful of
      primitive operations the scripts use (class [JSNumber]).
    - [JSON.parse] is a parameter of the model, [JSON_parse].
    - A thrown exception is the [Throw] case of [result]; file reads and
      HTTP requests are recorded in a trace ([io]). *)

From Stdlib Require Import Ascii String NArith ZArith QArith Lia.
From stdpp Require Import base option list strings gmap pretty.

Local Open Scope stdpp_scope.
Set Warnings "-register-all".

(** ** Code units *)

Module Chr.

Definition code (c : ascii) : N := N_of_ascii c.

Definition between (lo hi : N) (c : ascii) : bool :=
  ((lo <=? code c) && (code c <=? hi))%N.

Definition is_upper_az (c : ascii) : bool := between 65 90 c.
Definition is_lower_az (c : ascii) : bool := between 97 122 c.
Definition is_digit (c : ascii) : bool := between 48 57 c.

(** [\w]: ASCII letters, digits and underscore. *)
Definition is_word (c : ascii) : bool :=
  is_upper_az c || is_lower_az c || is_digit c || (code c =? 95)%N.

(** [\s], which on U+0000..U+00FF is also the set [trim] strips:
    TAB, LF, VT, FF, CR, SPACE and NO-BREAK SPACE. *)
Definition is_space (c : ascii) : bool :=
  between 9 13 c || (code c =? 32)%N || (code c =? 160)%N.

(** Upper-case letters of U+0000..U+00FF: A-Z, and U+00C0..U+00DE
    without the multiplication sign U+00D7. *)
Definition has_lower (c : ascii) : bool :=
  is_upper_az c || (between 192 222 c && negb (code c =? 215)%N).

Definition toLowerCase (c : ascii) : ascii :=
  if has_lower c then ascii_of_N (code c + 32) else c.

End Chr.

(** ** Strings: the String.prototype methods the scripts call *)

Module Str.

Fixpoint map (f : ascii → ascii) (s : string) : string :=
  match s with
  | EmptyString => EmptyString
  | String c s' => String (f c) (map f s')
  end.

Definition toLowerCase (s : string) : string := map Chr.toLowerCase s.

Fixpoint trimStart (s : string) : string :=
  match s with
  | EmptyString => EmptyString
  | String c s' => if Chr.is_space c then trimStart s' else s
  end.

Fixpoint trimEnd (s : string) : string :=
  match s with
  | EmptyString => EmptyString
  | String c s' =>
      match trimEnd s' with
      | EmptyString => if Chr.is_space c then EmptyString else String c EmptyString
      | t => String c t
      end
  end.

Definition trim (s : string) : string := trimEnd (trimStart s).

Definition is_empty (s : string) : bool :=
  match s with EmptyString => true | _ => false end.

(** [s.split(sep)] for a one-character separator: never the empty list. *)
Fixpoint split (sep : ascii) (s : string) : list string :=
  match s with
  | EmptyString => [EmptyString]
  | String c s' =>
      if Ascii.eqb c sep then EmptyString :: split sep s'
      else match split sep s' with
           | [] => [String c EmptyString]
           | w :: ws => String c w :: ws
           end
  end.

(** [parts.join(sep)]. *)
Fixpoint join (sep : string) (parts : list string) : string :=
  match parts with
  | [] => EmptyString
  | [p] => p
  | p :: ps => p +:+ sep +:+ join sep ps
  end.

End Str.

(** ** Regular expressions

    The fragment of ECMAScript regular expressions the scripts use, with
    the backtracking semantics of the standard: a matcher returns the
    states it can end in, in priority order, so the head of the list is
    the match the engine reports. *)

Module Re.

Inductive regex : Type :=
| Eps                             (* the empty pattern *)
| Chr (c : ascii)                 (* a pattern character *)
| Set_ (p : ascii → bool)         (* a character class *)
| Seq (r1 r2 : regex)
| Alt (r1 r2 : regex)             (* r1|r2 *)
| Opt (r : regex)                 (* r? (greedy) *)
| PlusSet (p : ascii → bool)      (* [class]+ (greedy) *)
| Bol                             (* ^ without the m flag *)
| Eol                             (* $ without the m flag *)
| WordB.                          (* \b *)

(** A position in the subject: the code unit before it and the rest. *)
Definition pos : Type := option ascii * string.

(** A run of pattern characters. *)
Fixpoint lit (s : string) : regex :=
  match s with
  | EmptyString => Eps
  | String c EmptyString => Chr c
  | String c s' => Seq (Chr c) (lit s')
  end.

(** A run of pattern characters under the [i] flag.  The standard
    compares canonical (upper-case) forms; on U+0000..U+00FF two code
    units have the same upper-case form exactly when they have the same
    lower-case form, except for U+00B5 and U+00FF, whose upper-case
    forms lie outside the range and which therefore match only
    themselves, as they do here. *)
Fixpoint lit_i (s : string) : regex :=
  let ci c := Set_ (λ x, Ascii.eqb (Chr.toLowerCase x) (Chr.toLowerCase c)) in
  match s with
  | EmptyString => Eps
  | String c EmptyString => ci c
  | String c s' => Seq (ci c) (lit_i s')
  end.

Fixpoint alts (r : regex) (rs : list regex) : regex :=
  match rs with
  | [] => r
  | r' :: rs' => Alt r (alts r' rs')
  end.

Definition word_before (p : pos) : bool :=
  match p.1 with Some c => Chr.is_word c | None => false end.
Definition word_after (p : pos) : bool :=
  match p.2 with String c _ => Chr.is_word c | EmptyString => false end.

Fixpoint run (p : ascii → bool) (rest : string) : list pos :=
  match rest with
  | String c rest' => if p c then run p rest' ++ [(Some c, rest')] else []
  | EmptyString => []
  end.

Fixpoint step (r : regex) (st : pos) : list pos :=
  match r with
  | Eps => [st]
  | Chr c =>
      match st.2 with
      | String c' rest' => if Ascii.eqb c' c then [(Some c', rest')] else []
      | EmptyString => []
      end
  | Set_ p =>
      match st.2 with
      | String c' rest' => if p c' then [(Some c', rest')] else []
      | EmptyString => []
      end
  | Seq r1 r2 => step r1 st ≫= step r2
  | Alt r1 r2 => step r1 st ++ step r2 st
  | Opt r => step r st ++ [st]
  | PlusSet p => run p st.2
  | Bol => match st.1 with None => [st] | Some _ => [] end
  | Eol => match st.2 with EmptyString => [st] | String _ _ => [] end
  | WordB => if xorb (word_before st) (word_after st) then [st] else []
  end.

(** [r.test(s)]: is there a match starting at some position? *)
Fixpoint search (r : regex) (prev : option ascii) (rest : string) : bool :=
  match step r (prev, rest) with
  | _ :: _ => true
  | [] =>
      match rest with
      | String c rest' => search r (Some c) rest'
      | EmptyString => false
      end
  end.

Definition test (r : regex) (s : string) : bool := search r None s.

(** The scan of a [g]-flagged regular expression.  [skip] counts the
    code units still inside the match found last; an empty match is
    followed by an advance of one code unit.  [on_match] and [on_char]
    build the result. *)
Section Scan.
Context {A : Type} (r : regex) (on_match : A → A) (on_char : ascii → A → A) (nil : A).

Fixpoint scan (skip : nat) (prev : option ascii) (rest : string) {struct rest} : A :=
  let advance (keep : bool) (sk : nat) : A :=
    match rest with
    | String c rest' =>
        (if keep then on_char c else id) (scan sk (Some c) rest')
    | EmptyString => nil
    end in
  match skip with
  | S k => advance false k
  | O =>
      match step r (prev, rest) with
      | (_, rest1) :: _ =>
          match String.length rest - String.length rest1 with
          | O => on_match (advance true O)
          | S k => on_match (advance false k)
          end
      | [] => advance true O
      end
  end.
End Scan.

(** [s.replace(r, by)] for a [g]-flagged [r] and a replacement text
    without [$] patterns. *)
Definition replace_all (r : regex) (by_ : string) (s : string) : string :=
  scan r (λ t, by_ +:+ t) String EmptyString 0 None s.

(** [(s.match(r) || []).length] for a [g]-flagged [r]. *)
Definition match_count (r : regex) (s : string) : nat :=
  scan r S (λ (_ : ascii) (n : nat), n) 0 0 None s.

End Re.

(** ** Exceptions *)

Inductive exn : Type :=
| TypeError                      (* a property read on null or undefined, a
                                    non-iterable in for-of, a missing method *)
| Error (message : string).      (* [new Error(message)], or a rejected promise *)

Inductive result (A : Type) : Type :=
| Ok (a : A)
| Throw (e : exn).
Arguments Ok {A} a.
Arguments Throw {A} e.

#[global] Instance result_bind : MBind result := λ A B k m,
  match m with
  | Ok a => k a
  | Throw e => Throw e
  end.
#[global] Instance result_ret : MRet result := @Ok.
#[global] Instance result_fmap : FMap result := λ A B f m,
  match m with
  | Ok a => Ok (f a)
  | Throw e => Throw e
  end.

(** [for (const x of xs) { ... }] with a body that may throw or skip. *)
Fixpoint rfilter_map {A B : Type} (f : A → result (option B)) (xs : list A)
  : result (list B) :=
  match xs with
  | [] => Ok []
  | x :: xs' =>
      y ← f x;
      ys ← rfilter_map f xs';
      Ok (match y with Some b => b :: ys | None => ys end)
  end.

Fixpoint rmap {A B : Type} (f : A → result B) (xs : list A) : result (list B) :=
  match xs with
  | [] => Ok []
  | x :: xs' =>
      y ← f x;
      ys ← rmap f xs';
      Ok (y :: ys)
  end.

(** ** Numbers *)

(** The primitive operations on JavaScript numbers the scripts rely on. *)
Class JSNumber (num : Type) : Type := {
  num_zero : num;                    (* the literal 0 *)
  num_add : num → num → num;         (* x + y *)
  num_div : num → num → num;         (* x / y *)
  num_of_nat : nat → num;            (* a counter after that many n++ *)
  num_truthy : num → bool;           (* false on 0, -0 and NaN *)
  num_is_finite : num → bool;        (* Number.isFinite *)
  num_to_string : num → string;      (* String(x) *)
  string_to_num : string → num;      (* Number(s) *)
}.

Section Model.

Context {num : Type} `{!JSNumber num}.

(** ** Values *)

Inductive json : Type :=
| JUndef
| JNull
| JBool (b : bool)
| JNum (n : num)
| JStr (s : string)
| JArr (items : list json)
| JObj (props : list (string * json)).

(** ToBoolean. *)
Definition truthy (v : json) : bool :=
  match v with
  | JUndef | JNull => false
  | JBool b => b
  | JNum n => num_truthy n
  | JStr s => negb (Str.is_empty s)
  | JArr _ | JObj _ => true
  end.

(** [a || b] *)
Definition or_else (a b : json) : json := if truthy a then a else b.
Infix "|||" := or_else (at level 50, left associativity).

Definition is_number (v : json) : bool :=
  match v with JNum _ => true | _ => false end.

(** [v == null] *)
Definition is_nullish (v : json) : bool :=
  match v with JUndef | JNull => true | _ => false end.

Definition isArray (v : json) : bool :=
  match v with JArr _ => true | _ => false end.

(** [v === 'text'] *)
Definition is_str (text : string) (v : json) : bool :=
  match v with JStr s => String.eqb s text | _ => false end.

(** Own-property read and write on a property list. *)
Fixpoint obj_get (props : list (string * json)) (k : string) : json :=
  match props with
  | [] => JUndef
  | (k', v) :: props' => if String.eqb k' k then v else obj_get props' k
  end.

Fixpoint obj_set (props : list (string * json)) (k : string) (v : json)
  : list (string * json) :=
  match props with
  | [] => [(k, v)]
  | (k', v') :: props' =>
      if String.eqb k' k then (k, v) :: props'
      else (k', v') :: obj_set props' k v
  end.

(** [v.k] for the property names the scripts read (none of which
    exists on a string, an array, a number or a boolean): a TypeError
    on null and undefined. *)
Definition get (v : json) (k : string) : result json :=
  match v with
  | JUndef | JNull => Throw TypeError
  | JObj props => Ok (obj_get props k)
  | _ => Ok JUndef
  end.

(** [v.k] where [v] is known not to be null or undefined. *)
Definition prop (v : json) (k : string) : json :=
  match v with
  | JObj props => obj_get props k
  | _ => JUndef
  end.

(** [String(v)] *)
Fixpoint ToString (v : json) : string :=
  match v with
  | JUndef => "undefined"
  | JNull => "null"
  | JBool true => "true"
  | JBool false => "false"
  | JNum n => num_to_string n
  | JStr s => s
  | JArr items =>
      Str.join ","
        ((fix elems (l : list json) : list string :=
            match l with
            | [] => []
            | (JUndef | JNull) :: l' => "" :: elems l'
            | x :: l' => ToString x :: elems l'
            end) items)
  | JObj _ => "[object Object]"
  end.

(** The single-character strings a string iterates over. *)
Fixpoint chars (s : string) : list json :=
  match s with
  | EmptyString => []
  | String c s' => JStr (String c EmptyString) :: chars s'
  end.

(** [{...v}] for a value that is not null or undefined: the own
    enumerable properties, which for an array or a string are its
    indices. *)
Definition spread (v : json) : list (string * json) :=
  match v with
  | JObj props => props
  | JArr items => imap (λ i x, (pretty i, x)) items
  | JStr s => imap (λ i x, (pretty i, x)) (chars s)
  | _ => []
  end.

(** ** Schools script: field normalisation and classification *)

Definition normalizeKey (s : json) : string :=
  let s1 := Str.toLowerCase (ToString (s ||| JStr "")) in
  let s2 := Re.replace_all (Re.PlusSet Chr.is_space) "" s1 in
  Re.replace_all
    (Re.Set_ (λ c, negb (Chr.is_lower_az c || Chr.is_digit c || Ascii.eqb c "_")))
    "" s2.

Definition re_district : Re.regex :=
  Re.Seq Re.WordB (Re.Seq (Re.lit "district") Re.WordB).

Definition normalizeDistrictName (name : json) : string :=
  if negb (truthy name) then ""
  else
    let s := Str.trim (Str.toLowerCase (ToString name)) in
    let s := Re.replace_all re_district "" s in
    let s := Re.replace_all (Re.PlusSet Chr.is_space) " " s in
    let s := Re.replace_all
               (Re.Set_ (λ c, negb (Chr.is_lower_az c || Chr.is_space c))) "" s in
    Str.trim s.

Definition re_government : Re.regex :=
  Re.alts (Re.lit "gov") [Re.lit "public"; Re.lit "state"].
Definition re_private : Re.regex :=
  Re.alts (Re.lit "private") [Re.lit "ngo"; Re.lit "foundation"; Re.lit "independent"].
Definition re_religious : Re.regex :=
  Re.alts (Re.lit "relig")
    [Re.lit "catholic"; Re.lit "anglican"; Re.lit "muslim"; Re.lit "church"; Re.lit "islam"].

Definition guessOwnership (v : json) : string :=
  if negb (truthy v) then "unknown"
  else
    let s := Str.toLowerCase (ToString v) in
    if Re.test re_government s then "government"
    else if Re.test re_private s then "private"
    else if Re.test re_religious s then "religious"
    else if Str.is_empty s then "unknown" else s.

Definition re_boys : Re.regex :=
  Re.Alt (Re.lit "boys") (Re.Seq (Re.lit "male") Re.WordB).
Definition re_girls : Re.regex :=
  Re.Alt (Re.lit "girls") (Re.Seq (Re.lit "female") Re.WordB).
Definition re_mixed : Re.regex :=
  Re.alts (Re.lit "mixed")
    [Re.lit "coed";
     Re.Seq (Re.lit "co") (Re.Seq (Re.Opt (Re.Chr "-")) (Re.lit "ed"));
     Re.lit "unisex"].

Definition guessGender (v : json) : string :=
  if negb (truthy v) then "unknown"
  else
    let s := Str.toLowerCase (ToString v) in
    if Re.test re_boys s then "boys"
    else if Re.test re_girls s then "girls"
    else if Re.test re_mixed s then "mixed"
    else if Str.is_empty s then "unknown" else s.

(** ** Schools script: the CSV reader *)

Definition TAB : ascii := ascii_of_N 9.
Definition LF : ascii := ascii_of_N 10.
Definition CR : ascii := ascii_of_N 13.
Definition DQUOTE : ascii := ascii_of_N 34.

Definition str1 (c : ascii) : string := String c EmptyString.

(** The pattern of [new RegExp(`\${d}`, 'g')].  In the template
    literal the backslash escapes the dollar sign, so nothing is
    interpolated: the pattern text is [${d}] for every [d], that is
    the end-of-input assertion followed by the three pattern
    characters [{], [d], [}]. *)
Definition re_delimiter (d : string) : Re.regex :=
  Re.Seq Re.Eol (Re.lit "{d}").

Definition detectCSVDelimiter (sample : string) : string :=
  let candidates := [","; ";"; str1 TAB] in
  let pick (acc : string * Z) (d : string) : string * Z :=
    let count := Z.of_nat (Re.match_count (re_delimiter d) sample) in
    if (acc.2 <? count)%Z then (d, count) else acc in
  (fold_left pick candidates (",", (-1)%Z)).1.

(** The inner [splitLine] of [parseCSV]; [cur] and [inQuotes] are its
    two loop variables, the cells pushed so far are consed in front. *)
Fixpoint splitLine_from (delimiter : string) (cur : string) (inQuotes : bool)
  (line : string) : list string :=
  match line with
  | EmptyString => [cur]
  | String ch rest =>
      if Ascii.eqb ch DQUOTE then
        match rest with
        | String ch' rest' =>
            if inQuotes && Ascii.eqb ch' DQUOTE
            then splitLine_from delimiter (cur +:+ str1 DQUOTE) inQuotes rest'
            else splitLine_from delimiter cur (negb inQuotes) rest
        | EmptyString => splitLine_from delimiter cur (negb inQuotes) rest
        end
      else if String.eqb (str1 ch) delimiter && negb inQuotes then
        cur :: splitLine_from delimiter EmptyString inQuotes rest
      else splitLine_from delimiter (cur +:+ str1 ch) inQuotes rest
  end.

Definition splitLine (delimiter : string) (line : string) : list string :=
  splitLine_from delimiter EmptyString false line.

(** [while (lines.length && lines[0].trim() === '') lines.shift()] *)
Fixpoint skip_blank (lines : list string) : list string :=
  match lines with
  | [] => []
  | l :: lines' => if Str.is_empty (Str.trim l) then skip_blank lines' else lines
  end.

(** [header[j] || `col_${j}`] *)
Definition column_key (j : nat) (h : string) : string :=
  if Str.is_empty h then "col_" +:+ pretty j else h.

(** [cols[j] !== undefined ? cols[j] : ''] *)
Definition cell (cols : list string) (j : nat) : string :=
  default EmptyString (cols !! j).

(** What the loop over [j] assigns for one data line: the key and the
    value of each header column, in order. *)
Definition columns (header cols : list string) : list (string * json) :=
  imap (λ j h, (column_key j h, JStr (cell cols j))) header.

(** The row object of one data line: [obj[key] = value], starting from
    the empty object. *)
Definition row_of (header cols : list string) : list (string * json) :=
  fold_left (λ obj kv, obj_set obj kv.1 kv.2) (columns header cols) [].

(** The lines [parseCSV] works on: line ends unified, split, leading
    blank lines dropped. *)
Definition csv_lines (text : string) : list string :=
  skip_blank
    (Str.split LF
       (Re.replace_all (Re.Chr CR) (str1 LF)
          (Re.replace_all (Re.Seq (Re.Chr CR) (Re.Chr LF)) (str1 LF) text))).

(** [!line || line.trim() === ''] *)
Definition blank (line : string) : bool :=
  Str.is_empty line || Str.is_empty (Str.trim line).

(** [lines.slice(0, Math.min(lines.length, 5)).join('\n')] *)
Definition csv_sample (lines : list string) : string :=
  Str.join (str1 LF) (take (Nat.min (length lines) 5) lines).

Definition parseCSV (text : string) : list (list (string * json)) :=
  let lines := csv_lines text in
  match lines with
  | [] => []
  | first :: rest =>
      let delimiter := detectCSVDelimiter (csv_sample lines) in
      let header := Str.trim <$> splitLine delimiter first in
      omap (λ line,
              if blank line then None
              else Some (row_of header (splitLine delimiter line)))
           rest
  end.

(** ** Schools script: rows and geometries to Point features *)

(** The [Map] from normalised key to key that [detectField] builds:
    a later key replaces an earlier one with the same normal form. *)
Definition normMap (keys : list string) : list (string * json) :=
  fold_left (λ m k, obj_set m (normalizeKey (JStr k)) (JStr k)) keys [].

Fixpoint first_hit (m : list (string * json)) (candidates : list string) : json :=
  match candidates with
  | [] => JNull
  | c :: cs =>
      let got := obj_get m (normalizeKey (JStr c)) in
      if truthy got then got else first_hit m cs
  end.

Definition detectField (obj : list (string * json)) (candidates : list string) : json :=
  first_hit (normMap (obj.*1)) candidates.

Definition toNumber (n : json) : json :=
  let x := string_to_num (Str.trim (ToString n)) in
  if num_is_finite x then JNum x else JNull.

(** [obj[k]] for a key [k] that [detectField] returned. *)
Definition at_key (obj : list (string * json)) (k : json) : json :=
  obj_get obj (ToString k).

Definition Point (coordinates : json) : json :=
  JObj [("type", JStr "Point"); ("coordinates", coordinates)].

Definition Feature (geometry properties : json) : json :=
  JObj [("type", JStr "Feature"); ("geometry", geometry); ("properties", properties)].

(** A FeatureCollection is represented by its [features] array. *)
Definition rowsToGeoJSON (rows : list (list (string * json))) : result (list json) :=
  match rows with
  | [] => Ok []
  | first :: _ =>
      let latKey := detectField first ["lat"; "latitude"; "y"; "geom_lat"; "Latitude"; "Lat"] in
      let lonKey := detectField first
                      ["lon"; "lng"; "longitude"; "x"; "geom_lon"; "Longitude"; "Long"; "Lng"] in
      let nameKey := detectField first ["name"; "school"; "school_name"; "name_of_school"; "Name"] in
      let ownershipKey := detectField first
                            ["ownership"; "ownership_type"; "management"; "operator:type"] in
      let genderKey := detectField first ["gender"; "gender_of_students"; "sex"] in
      let districtKey := detectField first ["district"; "adm2"; "admin2"; "ADM2_NAME"] in
      if negb (truthy latKey) || negb (truthy lonKey) then
        Throw (Error "CSV dataset does not contain recognizable lat/lon columns")
      else
        Ok (omap (λ r,
              let lat := toNumber (at_key r latKey) in
              let lon := toNumber (at_key r lonKey) in
              if is_nullish lat || is_nullish lon then None
              else
                let set_if (key : json) (k : string) (props : list (string * json)) :=
                  if truthy key then obj_set props k (at_key r key) else props in
                let props :=
                  set_if districtKey "district"
                    (set_if genderKey "gender"
                       (set_if ownershipKey "ownership"
                          (set_if nameKey "name" []))) in
                Some (Feature (Point (JArr [lon; lat])) (JObj props)))
           rows)
  end.

(** [for (const c of v)]: arrays and strings are iterable. *)
Definition iterate (v : json) : result (list json) :=
  match v with
  | JArr items => Ok items
  | JStr s => Ok (chars s)
  | _ => Throw TypeError
  end.

(** [v[i]] *)
Definition index (v : json) (i : nat) : result json :=
  match v with
  | JUndef | JNull => Throw TypeError
  | JArr items => Ok (default JUndef (items !! i))
  | JStr s => Ok (default JUndef (chars s !! i))
  | JObj props => Ok (obj_get props (pretty i))
  | _ => Ok JUndef
  end.

(** The test of [basicCentroid] on one element. *)
Definition numeric_pair (c : json) : option (num * num) :=
  match c with
  | JArr (JNum x :: JNum y :: _) => Some (x, y)
  | _ => None
  end.

Definition basicCentroid (coords : json) : result json :=
  cs ← iterate coords;
  let '(sx, sy, n) :=
    fold_left (λ '(sx, sy, n) c,
                 match numeric_pair c with
                 | Some (x, y) => (num_add sx x, num_add sy y, S n)
                 | None => (sx, sy, n)
                 end)
      cs (num_zero, num_zero, 0) in
  match n with
  | O => Ok JNull
  | S _ => Ok (JArr [JNum (num_div sx (num_of_nat n)); JNum (num_div sy (num_of_nat n))])
  end.

(** [Array.prototype.flat(depth)] *)
Fixpoint flat (depth : nat) (items : list json) : list json :=
  match depth with
  | O => items
  | S d =>
      items ≫= (λ x, match x with JArr inner => flat d inner | _ => [x] end)
  end.

(** [v.flat(depth)]: only arrays have the method. *)
Definition call_flat (v : json) (depth : nat) : result json :=
  match v with
  | JArr items => Ok (JArr (flat depth items))
  | _ => Throw TypeError
  end.

Definition toPointGeometry (geometry : json) : result json :=
  if negb (truthy geometry) then Ok JNull
  else
    let type := prop geometry "type" in
    let coordinates := prop geometry "coordinates" in
    if is_str "Point" type then Ok geometry
    else if is_str "MultiPoint" type then
      c ← index coordinates 0; Ok (Point c)
    else if is_str "LineString" type then
      c ← basicCentroid coordinates; Ok (Point c)
    else if is_str "MultiLineString" type then
      f ← call_flat coordinates 1; c ← basicCentroid f; Ok (Point c)
    else if is_str "Polygon" type then
      f ← call_flat coordinates 1; c ← basicCentroid f; Ok (Point c)
    else if is_str "MultiPolygon" type then
      f ← call_flat coordinates 2; c ← basicCentroid f; Ok (Point c)
    else Ok JNull.

Definition array_items (v : json) : list json :=
  match v with JArr items => items | _ => [] end.

Definition anyToFeatureCollection (obj : json) : list json :=
  if negb (truthy obj) then []
  else if is_str "FeatureCollection" (prop obj "type") && isArray (prop obj "features")
  then array_items (prop obj "features")
  else if isArray obj then array_items obj
  else if isArray (prop obj "features") then array_items (prop obj "features")
  else [].

(** [geom.coordinates.some((n) => typeof n !== 'number')] *)
Definition some_not_number (items : list json) : bool :=
  existsb (λ n, negb (is_number n)) items.

Definition coerceToPoints (fc : list json) : result (list json) :=
  rfilter_map
    (λ f,
       g ← get f "geometry";
       geom ← toPointGeometry g;
       if negb (truthy geom) then Ok None
       else
         match prop geom "coordinates" with
         | JArr items =>
             if some_not_number items then Ok None
             else Ok (Some (Feature geom (prop f "properties" ||| JObj [])))
         | _ => Ok None
         end)
    fc.

(** ** Schools script: enrichment *)

(** [districtToRegion[key]]: the table holds region names under
    normalised district names. *)
Definition table_get (districtToRegion : gmap string string) (key : string) : json :=
  match districtToRegion !! key with
  | Some region => JStr region
  | None => JUndef
  end.

Definition enrichProperties (props : list (string * json))
  (districtToRegion : gmap string string) : list (string * json) :=
  let p := props in
  let p := obj_set p "ownership"
             (JStr (guessOwnership
                      (obj_get p "ownership" ||| obj_get p "operator:type"
                       ||| obj_get p "operator_type" ||| obj_get p "operatorType"
                       ||| obj_get p "management"))) in
  let p := obj_set p "gender"
             (JStr (guessGender
                      (obj_get p "gender" ||| obj_get p "gender_of_students"
                       ||| obj_get p "sex"))) in
  let district := obj_get p "district" ||| obj_get p "addr:district"
                  ||| obj_get p "is_in:district" ||| obj_get p "admin2"
                  ||| obj_get p "ADM2_NAME" ||| obj_get p "subcounty" in
  let p := obj_set p "district" (district ||| JNull) in
  let region := obj_get p "region" ||| obj_get p "ADM1_NAME" ||| obj_get p "province"
                ||| JNull in
  let region :=
    if negb (truthy region) && truthy (obj_get p "district")
    then table_get districtToRegion (normalizeDistrictName (obj_get p "district")) ||| JNull
    else region in
  obj_set p "region" region.

Definition enrichFeatureCollection (fc : list json)
  (districtToRegion : gmap string string) : list json :=
  (λ f,
     let props := spread (prop f "properties" ||| JObj []) in
     let nameKey := detectField props ["name"; "school"; "school_name"; "Name"] in
     let props :=
       if truthy nameKey && negb (truthy (obj_get props "name"))
       then obj_set props "name" (at_key props nameKey)
       else props in
     Feature (prop f "geometry") (JObj (enrichProperties props districtToRegion)))
  <$> fc.

(** ** Schools script: sourcing *)

Inductive event : Type :=
| ReadFile (name : string)     (* fs.readFileSync of a file under data/ *)
| Fetch (url : string).        (* one HTTP request through fetchText *)

(** What a run finds around it. *)
Record world : Type := {
  file : string → option string;             (* the files under data/ *)
  getenv : string → json;                    (* process.env: a string or undefined *)
  fetchText : string → string → result string;  (* url, method *)
}.

(** [JSON.parse]; [None] when it throws. *)
Variable JSON_parse : string → option json.

(** A computation that performs I/O: the trace of what it did and how
    it ended. *)
Definition io (A : Type) : Type := list event * result A.

#[global] Instance io_bind : MBind io := λ A B k m,
  match m.2 with
  | Ok a => (m.1 ++ (k a).1, (k a).2)
  | Throw e => (m.1, Throw e)
  end.
#[global] Instance io_ret : MRet io := λ A a, ([], Ok a).

Definition lift {A : Type} (r : result A) : io A := ([], r).
Definition emit (e : event) : io unit := ([e], Ok ()).

(** [try { m } catch (e) { handler }] *)
Definition try_catch {A : Type} (m : io A) (handler : exn → io A) : io A :=
  match m.2 with
  | Ok a => m
  | Throw e => (m.1 ++ (handler e).1, (handler e).2)
  end.

Definition tryReadLocalOfficialDataset (w : world) : option (string * string) :=
  let candidates :=
    [("official_secondary_schools.geojson", ".geojson");
     ("official_secondary_schools.json", ".json");
     ("official_secondary_schools.csv", ".csv")] in
  head (filter (λ c, is_Some (file w c.1)) candidates).

Definition readFileSync (w : world) (name : string) : io string :=
  emit (ReadFile name);;
  lift (match file w name with
        | Some raw => Ok raw
        | None => Throw (Error "ENOENT")
        end).

Definition fetch_text (w : world) (url method : string) : io string :=
  emit (Fetch url);; lift (fetchText w url method).

Definition tryParseJSON (text : string) : json :=
  default JNull (JSON_parse text).

(** The value [tryLoadOfficialDataset] resolves to: [null], or a
    source label with a collection. *)
Definition sourced : Type := option (string * list json).

(** What the script makes of the contents of the local file. *)
Definition official_from_file (districtToRegion : gmap string string)
  (ext raw : string) : result sourced :=
  if String.eqb ext ".csv" then
    let rows := parseCSV raw in
    fc ← rowsToGeoJSON rows;
    Ok (Some ("official-local", enrichFeatureCollection fc districtToRegion))
  else
    let json := tryParseJSON raw in
    if negb (truthy json) then
      Throw (Error "Failed to parse local official dataset JSON")
    else
      fc ← coerceToPoints (anyToFeatureCollection json);
      Ok (Some ("official-local", enrichFeatureCollection fc districtToRegion)).

(** The first part of [tryLoadOfficialDataset]: "First check a local
    file under data/". *)
Definition load_local (w : world) (districtToRegion : gmap string string)
  (localPath ext : string) : io sourced :=
  raw ← readFileSync w localPath;
  lift (official_from_file districtToRegion ext raw).

(** [process.env.OFFICIAL_SCHOOLS_URL || process.env.SECONDARY_SCHOOLS_URL || ''] *)
Definition official_url (w : world) : json :=
  getenv w "OFFICIAL_SCHOOLS_URL" ||| getenv w "SECONDARY_SCHOOLS_URL" ||| JStr "".

(** What the script makes of the text behind the URL. *)
Definition official_from_text (districtToRegion : gmap string string)
  (text : string) : result sourced :=
  let json := tryParseJSON text in
  if truthy json then
    fc ← coerceToPoints (anyToFeatureCollection json);
    Ok (Some ("official-remote", enrichFeatureCollection fc districtToRegion))
  else
    let rows := parseCSV text in
    match rows with
    | _ :: _ =>
        fc ← rowsToGeoJSON rows;
        Ok (Some ("official-remote-csv", enrichFeatureCollection fc districtToRegion))
    | [] => Ok None
    end.

(** The second part: "Otherwise try from URL env var", once the URL is
    known to be set. *)
Definition load_remote (w : world) (districtToRegion : gmap string string)
  (url : string) : io sourced :=
  text ← fetch_text w url "GET";
  lift (official_from_text districtToRegion text).

Definition tryLoadOfficialDataset (w : world) (districtToRegion : gmap string string)
  : io sourced :=
  match tryReadLocalOfficialDataset w with
  | Some (localPath, ext) => load_local w districtToRegion localPath ext
  | None =>
      let url := official_url w in
      if negb (truthy url) then mret None
      else load_remote w districtToRegion (ToString url)
  end.

(** One element of the Overpass answer in [fetchOverpass]. *)
Definition overpass_feature (el : json) : result (option json) :=
  type ← get el "type";
  let center := prop el "center" in
  let at_node := is_str "node" type && is_number (prop el "lon") && is_number (prop el "lat") in
  let at_center := truthy center && is_number (prop center "lon")
                   && is_number (prop center "lat") in
  let lon := if at_node then prop el "lon" else if at_center then prop center "lon" else JNull in
  let lat := if at_node then prop el "lat" else if at_center then prop center "lat" else JNull in
  if is_nullish lon || is_nullish lat then Ok None
  else
    let props := spread (prop el "tags" ||| JObj []) in
    let props := obj_set props "name"
                   (obj_get props "name" ||| obj_get props "official_name" ||| JNull) in
    let props := obj_set props "ownership"
                   (obj_get props "ownership" ||| obj_get props "operator:type"
                    ||| obj_get props "operator_type" ||| obj_get props "operator") in
    let props := obj_set props "gender"
                   (obj_get props "gender" ||| obj_get props "student:gender") in
    let props := obj_set props "district"
                   (obj_get props "addr:district" ||| obj_get props "district"
                    ||| obj_get props "is_in:district" ||| JNull) in
    Ok (Some (Feature (Point (JArr [lon; lat])) (JObj props))).

(** [process.env.OVERPASS_URL || 'https://overpass-api.de/api/interpreter'] *)
Definition overpass_endpoint (w : world) : json :=
  getenv w "OVERPASS_URL" ||| JStr "https://overpass-api.de/api/interpreter".

(** What [fetchOverpass] makes of the answer. *)
Definition overpass_collection (text : string) : result (list json) :=
  let json := tryParseJSON text in
  if negb (truthy json) || negb (isArray (prop json "elements")) then
    Throw (Error "Invalid Overpass response")
  else
    rfilter_map overpass_feature (array_items (prop json "elements")).

Definition fetchOverpass (w : world) : io (list json) :=
  text ← fetch_text w (ToString (overpass_endpoint w)) "POST";
  lift (overpass_collection text).

(** What [main] writes to public/data/schools.geojson. *)
Record output : Type := {
  features : list json;
  meta_source : string;
}.

(** [main], from the point where the district table has been built.
    [Throw] is the outer [catch]: nothing is written and the exit
    code is 1.  The [generatedAt] time stamp of [meta] is left out. *)
Definition main (w : world) (districtToRegion : gmap string string) : io output :=
  result ← try_catch (tryLoadOfficialDataset w districtToRegion) (λ _, mret None);
  match result with
  | Some (source, collection) =>
      mret {| features := collection;
              meta_source := if Str.is_empty source then "official" else source |}
  | None =>
      overpassFC ← fetchOverpass w;
      mret {| features := enrichFeatureCollection overpassFC districtToRegion;
              meta_source := "overpass" |}
  end.

(** ** Fiber script: the retry coordinator *)

(** A [fetch] response, as far as [postJSONWithRetry] looks at it. *)
Record response : Type := {
  ok : bool;
  status : nat;
  statusText : string;
  text : result string;        (* await res.text() *)
  body_json : result json;     (* await res.json() *)
}.

(** The network: what the [fetch] of a given attempt against a given
    endpoint resolves to, or the error it rejects with. *)
Definition network : Type := nat → json → result response.

(** The body of the [try] block of one attempt. *)
Definition attempt_once (net : network) (attempt : nat) (endpoint : json) : result json :=
  res ← net attempt endpoint;
  if negb (ok res) then
    text ← text res;
    Throw (Error ("Overpass HTTP " +:+ pretty (status res) +:+ ": " +:+ statusText res
                  +:+ " - " +:+ String.substring 0 200 text))
  else
    json ← body_json res;
    let is_object := match json with JArr _ | JObj _ => true | _ => false end in
    if truthy json && is_object && truthy (prop json "remark") then
      Throw (Error ("Overpass remark: " +:+ ToString (prop json "remark")))
    else Ok json.

(** [endpoints[(attempt - 1) % endpoints.length]]; with no endpoint
    the index is NaN and the read is undefined, which is also what the
    lookup in the empty list gives. *)
Definition endpoint_of (endpoints : list string) (attempt : nat) : json :=
  match endpoints !! ((attempt - 1) `mod` length endpoints) with
  | Some e => JStr e
  | None => JUndef
  end.

(** The [for] loop with [remaining] iterations to go: the endpoints
    requested, in order, and the outcome.  The waits between attempts
    and the log lines have no influence on either and are left out. *)
Fixpoint retry_loop (net : network) (endpoints : list string)
  (remaining attempt : nat) (lastError : option exn) : list json * result json :=
  match remaining with
  | O => ([], Throw (default (Error "Overpass query failed") lastError))
  | S remaining' =>
      let endpoint := endpoint_of endpoints attempt in
      match attempt_once net attempt endpoint with
      | Ok json => ([endpoint], Ok json)
      | Throw err =>
          let rest := retry_loop net endpoints remaining' (S attempt) (Some err) in
          (endpoint :: rest.1, rest.2)
      end
  end.

Definition postJSONWithRetry (net : network) (endpoints : list string)
  (maxAttempts : nat) : list json * result json :=
  retry_loop net endpoints maxAttempts 1 None.

(** ** Fiber script: OSM elements to features *)

Definition re_fibre : Re.regex := Re.Alt (Re.lit_i "fibre") (Re.lit_i "fiber").
Definition re_site : Re.regex :=
  Re.Seq Re.Bol
    (Re.Seq (Re.alts (Re.lit_i "exchange")
               [Re.lit_i "distribution_point"; Re.lit_i "data_center"])
       Re.Eol).

Definition LineString (coordinates : json) : json :=
  JObj [("type", JStr "LineString"); ("coordinates", coordinates)].

Definition MultiLineString (lines : list json) : json :=
  JObj [("type", JStr "MultiLineString"); ("coordinates", JArr lines)].

(** [g.map((p) => [p.lon, p.lat])] *)
Definition vertices (g : list json) : result json :=
  JArr <$> rmap (λ p, lon ← get p "lon"; Ok (JArr [lon; prop p "lat"])) g.

(** The line a relation member contributes, if any. *)
Definition member_line (m : json) : result (option json) :=
  type ← get m "type";
  match prop m "geometry" with
  | JArr g => if is_str "way" type then Some <$> vertices g else Ok None
  | _ => Ok None
  end.

Definition commonProps (el tags : json) : list (string * json) :=
  [("osm_id", prop el "id");
   ("osm_type", prop el "type");
   ("name", prop tags "name" ||| prop tags "ref" ||| JNull);
   ("operator", prop tags "operator" ||| JNull);
   ("owner", prop tags "owner" ||| JNull);
   ("telecom", prop tags "telecom" ||| JNull);
   ("cable_medium", prop tags "cable:medium" ||| JNull);
   ("communication_medium", prop tags "communication:medium" ||| JNull);
   ("source", JStr "OpenStreetMap");
   ("licence", JStr "ODbL-1.0");
   ("attribution", JStr (str1 (ascii_of_N 169) +:+ " OpenStreetMap contributors"))].

(** "Determine feature type classification" *)
Definition featureType (el tags : json) : json :=
  let type := prop el "type" in
  let featureType :=
    if (is_str "way" type || is_str "relation" type)
       && ((is_str "telecom" (prop tags "cable")
            && Re.test re_fibre (ToString (prop tags "cable:medium" ||| JStr "")))
           || (truthy (prop tags "communication:line")
               && Re.test re_fibre (ToString (prop tags "communication:medium" ||| JStr ""))))
    then JStr "fiber_line" else JNull in
  if is_str "node" type then
    if Re.test re_site (ToString (prop tags "telecom" ||| JStr "")) then JStr "telecom_site"
    else if is_str "street_cabinet" (prop tags "man_made") && truthy (prop tags "telecom")
    then JStr "telecom_cabinet"
    else if is_str "utility_pole" (prop tags "man_made") && is_str "telecom" (prop tags "utility")
    then JStr "telecom_pole"
    else featureType
  else featureType.

(** "Build geometry": [JNull] when there is none. *)
Definition element_geometry (el : json) : result json :=
  let type := prop el "type" in
  if is_str "node" type && is_number (prop el "lon") && is_number (prop el "lat") then
    Ok (Point (JArr [prop el "lon"; prop el "lat"]))
  else if is_str "way" type && isArray (prop el "geometry") then
    coords ← vertices (array_items (prop el "geometry"));
    Ok (LineString coords)
  else if is_str "relation" type && isArray (prop el "members") then
    lines ← rfilter_map member_line (array_items (prop el "members"));
    match lines with
    | [] => Ok JNull
    | [line] => Ok (LineString line)
    | _ => Ok (MultiLineString lines)
    end
  else Ok JNull.

(** The result is [JNull] when the element is skipped. *)
Definition elementToGeoJSONFeature (el : json) : result json :=
  tags ← get el "tags";
  let tags := tags ||| JObj [] in
  geometry ← element_geometry el;
  if negb (truthy geometry) then Ok JNull
  else
    Ok (JObj [("type", JStr "Feature");
              ("id", JStr (ToString (prop el "type") +:+ "/" +:+ ToString (prop el "id")));
              ("geometry", geometry);
              ("properties",
               JObj (commonProps el tags
                     ++ [("feature_type", featureType el tags); ("tags", tags)]))]).

Definition buildFeatureCollection (elements : list json) : result (list json) :=
  rfilter_map
    (λ el, f ← elementToGeoJSONFeature el; Ok (if truthy f then Some f else None))
    elements.

(** ** Schools script: the district table *)

(** [typeof v === 'object'] for a value that is not null. *)
Definition is_object (v : json) : bool :=
  match v with JArr _ | JObj _ => true | _ => false end.

(** [for (const d of districts) mapping[normalizeDistrictName(d)] = region] *)
Definition add_districts (mapping : gmap string string) (region : string)
  (districts : list json) : gmap string string :=
  fold_left (λ m d, <[normalizeDistrictName d := region]> m) districts mapping.

(** One entry of the [mappings] or [regions] list. *)
Definition add_region_entry (mapping : gmap string string) (entry : json)
  : result (gmap string string) :=
  r ← get entry "region";
  let region := r ||| prop entry "name" ||| prop entry "label" in
  let districts := prop entry "districts" ||| prop entry "items" ||| JArr [] in
  if negb (truthy region) || negb (isArray districts) then Ok mapping
  else Ok (add_districts mapping (ToString region) (array_items districts)).

Fixpoint add_region_entries (mapping : gmap string string) (entries : list json)
  : result (gmap string string) :=
  match entries with
  | [] => Ok mapping
  | entry :: entries' =>
      mapping' ← add_region_entry mapping entry;
      add_region_entries mapping' entries'
  end.

(** [Object.entries(v)] of an object or an array is [spread v]. *)
Definition buildDistrictToRegionMap (regionsJson : json) : result (gmap string string) :=
  if negb (truthy regionsJson) || negb (is_object regionsJson) then Ok ∅
  else
    let districtToRegion := prop regionsJson "districtToRegion" in
    if truthy districtToRegion && is_object districtToRegion then
      Ok (fold_left (λ m dr, <[normalizeDistrictName (JStr dr.1) := ToString dr.2]> m)
            (spread districtToRegion) ∅)
    else if isArray (prop regionsJson "mappings") then
      add_region_entries ∅ (array_items (prop regionsJson "mappings"))
    else if isArray (prop regionsJson "regions") then
      add_region_entries ∅ (array_items (prop regionsJson "regions"))
    else
      Ok (fold_left (λ m rv, match rv.2 with
                             | JArr districts => add_districts m rv.1 districts
                             | _ => m
                             end)
            (spread regionsJson) ∅).

(** [readJSON]: [JSON.parse] throws a SyntaxError on a text that is not
    JSON. *)
Definition readJSON (w : world) (name : string) : io json :=
  raw ← readFileSync w name;
  lift (match JSON_parse raw with
        | Some v => Ok v
        | None => Throw (Error "SyntaxError")
        end).

(** [main] from its first line: the district table is built from
    data/regions.json when that file exists, from [{}] otherwise, and
    the run goes on as [main] above. *)
Definition main_with_regions (w : world) : io output :=
  regionsJson ← (match file w "regions.json" with
                 | Some _ => readJSON w "regions.json"
                 | None => mret (JObj [])
                 end);
  districtToRegion ← lift (buildDistrictToRegionMap regionsJson);
  main w districtToRegion.

(** ** Fiber script: the run *)

Definition OVERPASS_ENDPOINTS : list string :=
  ["https://overpass.kumi.systems/api/interpreter";
   "https://overpass-api.de/api/interpreter";
   "https://overpass.openstreetmap.fr/api/interpreter";
   "https://overpass.openstreetmap.ru/api/interpreter"].

Inductive fiber_event : Type :=
| Post (endpoint : json)                 (* one request of the retry loop *)
| WriteRaw (payload : json)              (* the raw answer, under data/raw *)
| WriteOutput (features : list json).    (* public/data/fiber.geojson *)

(** [main] of the fiber script: what it requests and writes, and whether
    it ends with an exception ([run] then prints it and exits with 1).
    Directory creation, time stamps, the hash in the cache file name and
    the metadata block are left out. *)
Definition fiber_main (net : network) : list fiber_event * result unit :=
  let answer := postJSONWithRetry net OVERPASS_ENDPOINTS 6 in
  match answer.2 with
  | Throw e => (Post <$> answer.1, Throw e)
  | Ok json =>
      let cached := (Post <$> answer.1) ++ [WriteRaw json] in
      match (elements ← get json "elements";
             buildFeatureCollection
               (if isArray elements then array_items elements else [])) with
      | Throw e => (cached, Throw e)
      | Ok features => (cached ++ [WriteOutput features], Ok ())
      end
  end.

(** ** Front end: map style and school filters *)

(** [v && v.trim().length > 0] for an environment variable. *)
Definition configured (v : json) : bool :=
  truthy v && negb (Str.is_empty (Str.trim (ToString v))).

(** [env] gives [process.env.NAME]: a string or undefined. *)
Definition getMapStyle (env : string → json) : string :=
  let explicit := env "NEXT_PUBLIC_MAP_STYLE_URL" in
  if configured explicit then Str.trim (ToString explicit)
  else
    let maptilerKey := env "NEXT_PUBLIC_MAPTILER_API_KEY" in
    if configured maptilerKey then
      "https://api.maptiler.com/maps/streets-v2/style.json?key="
      +:+ Str.trim (ToString maptilerKey)
    else "https://demotiles.maplibre.org/style.json".

Definition getStyleLabel (env : string → json) : string :=
  let explicit := env "NEXT_PUBLIC_MAP_STYLE_URL" in
  if truthy explicit && negb (Str.is_empty (Str.trim (ToString explicit)))
  then "Custom style URL"
  else
    let maptilerKey := env "NEXT_PUBLIC_MAPTILER_API_KEY" in
    if truthy maptilerKey && negb (Str.is_empty (Str.trim (ToString maptilerKey)))
    then "MapTiler Streets (API key)"
    else "MapLibre Demo style".

(** [toggleSetValue]: a copy of the set with the value removed when it
    was a member, added otherwise. *)
Definition toggleSetValue (current : gset string) (value : string) : gset string :=
  if bool_decide (value ∈ current) then current ∖ {[value]} else current ∪ {[value]}.

(** [selected.has(v)] for a set of strings. *)
Definition set_has (selected : gset string) (v : json) : bool :=
  match v with JStr s => bool_decide (s ∈ selected) | _ => false end.

(** [s.includes(q)] *)
Definition includes (s q : string) : bool := Re.test (Re.lit q) s.

(** [v.toLowerCase()]: only strings have the method. *)
Definition call_toLowerCase (v : json) : result string :=
  match v with
  | JStr s => Ok (Str.toLowerCase s)
  | _ => Throw TypeError
  end.

(** The body of the loop of [filteredSchools]: does the feature pass? *)
Definition school_passes (q : string) (regions ownerships genders : gset string)
  (f : json) : result bool :=
  p ← get f "properties";
  out_region ← (if bool_decide (regions ≠ ∅)
                then (v ← get p "region"; Ok (negb (set_has regions v))) else Ok false);
  if (out_region : bool) then Ok false
  else
    out_owner ← (if bool_decide (ownerships ≠ ∅)
                 then (v ← get p "ownership"; Ok (negb (set_has ownerships v))) else Ok false);
    if (out_owner : bool) then Ok false
    else
      out_gender ← (if bool_decide (genders ≠ ∅)
                    then (v ← get p "gender"; Ok (negb (set_has genders v))) else Ok false);
      if (out_gender : bool) then Ok false
      else
        if Str.is_empty q then Ok true
        else
          v ← get p "name";
          name ← call_toLowerCase (v ||| JStr "");
          Ok (includes name q).

(** The features of [filteredSchools] for loaded schools data. *)
Definition filteredSchools (features : list json) (searchQuery : string)
  (selectedRegions selectedOwnerships selectedGenders : gset string)
  : result (list json) :=
  let q := Str.toLowerCase (Str.trim searchQuery) in
  rfilter_map
    (λ f, keep ← school_passes q selectedRegions selectedOwnerships selectedGenders f;
          Ok (if (keep : bool) then Some f else None))
    features.


End Model.

Infix "|||" := or_else (at level 50, left associativity).


(** ** A reference number model

    Exact rationals in lowest terms with a NaN, enough to run the
    scripts on decimal numerals.  It agrees with IEEE doubles wherever
    the values involved are exactly representable; [String(x)] is
    faithful on integers. *)

Inductive refnum : Type :=
| NaN
| Fin (q : Q).

Definition refnum_lift2 (f : Q → Q → Q) (x y : refnum) : refnum :=
  match x, y with
  | Fin a, Fin b => Fin (Qred (f a b))
  | _, _ => NaN
  end.

Definition refnum_of_Z (z : Z) : refnum := Fin (inject_Z z).

Fixpoint digits_value (acc : Z) (s : string) : option Z :=
  match s with
  | EmptyString => Some acc
  | String c s' =>
      if Chr.is_digit c
      then digits_value (10 * acc + Z.of_N (Chr.code c) - 48)%Z s'
      else None
  end.

(** An unsigned decimal numeral: digits with an optional fraction. *)
Definition decimal_value (s : string) : refnum :=
  match Str.split "." s with
  | [i] =>
      match digits_value 0 i with
      | Some a => if Str.is_empty i then NaN else refnum_of_Z a
      | None => NaN
      end
  | [i; f] =>
      match digits_value 0 i, digits_value 0 f with
      | Some a, Some b =>
          if Str.is_empty i && Str.is_empty f then NaN
          else
            let scale := (10 ^ Z.of_nat (String.length f))%Z in
            Fin (Qred (Qmake (a * scale + b) (Z.to_pos scale)))
      | _, _ => NaN
      end
  | _ => NaN
  end.

Definition refnum_of_string (s : string) : refnum :=
  match Str.trim s with
  | EmptyString => refnum_of_Z 0
  | String "-" s' => refnum_lift2 Qminus (refnum_of_Z 0) (decimal_value s')
  | String "+" s' => decimal_value s'
  | s' => decimal_value s'
  end.

Definition refnum_to_string (x : refnum) : string :=
  match x with
  | NaN => "NaN"
  | Fin q =>
      if (Qden q =? 1)%positive then pretty (Qnum q)
      else pretty (Qnum q) +:+ "/" +:+ pretty (Zpos (Qden q))
  end.

#[global] Instance refnum_JSNumber : JSNumber refnum := {|
  num_zero := refnum_of_Z 0;
  num_add := refnum_lift2 Qplus;
  num_div x y :=
    match y with
    | Fin b => if Qeq_bool b 0 then NaN else refnum_lift2 Qdiv x y
    | NaN => NaN
    end;
  num_of_nat n := refnum_of_Z (Z.of_nat n);
  num_truthy x := match x with NaN => false | Fin q => negb (Qeq_bool q 0) end;
  num_is_finite x := match x with NaN => false | Fin _ => true end;
  num_to_string := refnum_to_string;
  string_to_num := refnum_of_string;
|}.

(** A number literal of the examples. *)
Definition n_ (z : Z) : @json refnum := JNum (refnum_of_Z z).

(** * Vocabulary of the properties *)

Section Vocabulary.

Context {num : Type} `{!JSNumber num}.
Variable JSON_parse : string → option (@json num).

(** The value [enrichProperties] classifies as ownership. *)
Definition ownership_tag (p : list (string * @json num)) : json :=
  obj_get p "ownership" ||| obj_get p "operator:type" ||| obj_get p "operator_type"
  ||| obj_get p "operatorType" ||| obj_get p "management".


(** The value [enrichProperties] classifies as gender. *)
Definition gender_tag (p : list (string * @json num)) : json :=
  obj_get p "gender" ||| obj_get p "gender_of_students" ||| obj_get p "sex".

(** A record with a given district text, and the region enrichment
    resolves for a record. *)
Definition with_district (p : list (string * @json num)) (district : string)
  : list (string * json) :=
  obj_set p "district" (JStr district).

Definition region_of (districtToRegion : gmap string string)
  (p : list (string * @json num)) : json :=
  obj_get (enrichProperties p districtToRegion) "region".







(** The line of a way: one [lon, lat] pair per vertex, in order. *)
Definition vertex_pair (p : @json num) : @json num := JArr [prop p "lon"; prop p "lat"].

Definition way_line (m : @json num) : @json num :=
  JArr (vertex_pair <$> array_items (prop m "geometry")).

(** A relation member is a way that carries geometry. *)
Definition carries_geometry (m : @json num) : bool :=
  is_str "way" (prop m "type") && isArray (prop m "geometry").

Definition geometric_members (el : @json num) : list json :=
  filter (λ m, carries_geometry m = true) (array_items (prop el "members")).

(** An OSM relation element: its type is "relation", and neither a
    member nor a vertex of a member way is null. *)
Definition osm_relation (el : @json num) : Prop :=
  is_str "relation" (prop el "type") = true
  ∧ Forall (λ m, is_nullish m = false) (array_items (prop el "members"))
  ∧ Forall (λ m, Forall (λ p, is_nullish p = false) (array_items (prop m "geometry")))
      (geometric_members el).

(** Every leaf of a nested coordinate array is a number. *)
Fixpoint leaves_numeric (v : @json num) : bool :=
  match v with
  | JNum _ => true
  | JArr items => forallb leaves_numeric items
  | _ => false
  end.

(** A feature has a geometry whose coordinate leaves are all numbers. *)
Definition numeric_geometry (f : @json num) : bool :=
  truthy (prop f "geometry") && leaves_numeric (prop (prop f "geometry") "coordinates").


(** The sum of a list of numbers, added left to right from 0. *)
Definition sum (xs : list num) : num := fold_left num_add xs num_zero.

(** The numeric coordinate pairs among the elements of an array. *)
Definition pairs_in (items : list (@json num)) : list (num * num) :=
  omap numeric_pair items.

(** The component-wise mean of a list of pairs as a position; [JNull]
    when there is no pair. *)
Definition mean_point (ps : list (num * num)) : @json num :=
  match ps with
  | [] => JNull
  | _ =>
      JArr [JNum (num_div (sum ps.*1) (num_of_nat (length ps)));
            JNum (num_div (sum ps.*2) (num_of_nat (length ps)))]
  end.

(** How deep the positions of a geometry type lie below [coordinates],
    for the types [toPointGeometry] averages. *)
Definition coordinate_depth (type : @json num) : option nat :=
  if is_str "LineString" type then Some 0
  else if is_str "MultiLineString" type then Some 1
  else if is_str "Polygon" type then Some 1
  else if is_str "MultiPolygon" type then Some 2
  else None.

(** The numeric coordinate pairs found anywhere in a nested coordinate
    structure, in order. *)
Fixpoint all_pairs (v : @json num) : list (num * num) :=
  match v with
  | JArr items =>
      match numeric_pair v with
      | Some p => [p]
      | None =>
          (fix go (l : list json) : list (num * num) :=
             match l with
             | [] => []
             | x :: l' => all_pairs x ++ go l'
             end) items
      end
  | _ => []
  end.

(** The specification read literally: the centroid over all numeric
    pairs. *)
Definition centroid_of_all_pairs (geometry : @json num) : @json num :=
  Point (mean_point (all_pairs (prop geometry "coordinates"))).


(** How attempt [i] of a run ends: with the JSON payload, or failed. *)
Definition outcome (net : @network num) (endpoints : list string) (i : nat)
  : result json :=
  attempt_once net i (endpoint_of endpoints i).

(** The endpoints of attempts 1 to [k] under rotation: attempt [i] goes
    to [endpoints[(i - 1) mod N]]. *)
Definition rotation (endpoints : list string) (k : nat) : list (@json num) :=
  (λ i, match endpoints !! ((i - 1) `mod` length endpoints) with
        | Some e => JStr e
        | None => JUndef
        end) <$> seq 1 k.


(** The three sourcing states of the specification, each as it runs when
    attempted on its own. *)
Definition try_local_official (w : @world num) (d2r : gmap string string) : io sourced :=
  match tryReadLocalOfficialDataset w with
  | Some (localPath, ext) => load_local JSON_parse w d2r localPath ext
  | None => mret None
  end.

Definition try_remote_official (w : @world num) (d2r : gmap string string) : io sourced :=
  if negb (truthy (official_url w)) then mret None
  else load_remote JSON_parse w d2r (ToString (official_url w)).

Definition fallback_overpass (w : @world num) (d2r : gmap string string) : io sourced :=
  fc ← fetchOverpass JSON_parse w;
  mret (Some ("overpass", enrichFeatureCollection fc d2r)).

(** A state yields a usable collection: it ends without an exception
    with a collection that is not empty. *)
Definition usable (state : io (@sourced num)) : option output :=
  match state.2 with
  | Ok (Some (source, (_ :: _) as collection)) =>
      Some {| features := collection; meta_source := source |}
  | _ => None
  end.

(** The specification read literally: the states are attempted in
    order, the first usable collection is the output, and a state that
    fails hands over to the next one. *)
Definition first_usable (w : @world num) (d2r : gmap string string) : option output :=
  match usable (try_local_official w d2r) with
  | Some out => Some out
  | None =>
      match usable (try_remote_official w d2r) with
      | Some out => Some out
      | None => usable (fallback_overpass w d2r)
      end
  end.

Definition follows_state_order (w : @world num) (d2r : gmap string string) : Prop :=
  match first_usable w d2r with
  | Some out => (main JSON_parse w d2r).2 = Ok out
  | None => ∃ e, (main JSON_parse w d2r).2 = Throw e
  end.

(** The output of the Overpass state for a collection. *)
Definition overpass_output (d2r : gmap string string) (fc : list (@json num)) : output :=
  {| features := enrichFeatureCollection fc d2r; meta_source := "overpass" |}.


(** A predicate on every code unit of a string. *)
Fixpoint all_chars (p : ascii → bool) (s : string) : bool :=
  match s with
  | EmptyString => true
  | String c s' => p c && all_chars p s'
  end.

Definition not_quote (c : ascii) : bool := negb (Ascii.eqb c DQUOTE).

(** The text of a CSV field between quotes: every quote doubled. *)
Fixpoint csv_escape (s : string) : string :=
  match s with
  | EmptyString => EmptyString
  | String c s' =>
      if Ascii.eqb c DQUOTE then String DQUOTE (String DQUOTE (csv_escape s'))
      else String c (csv_escape s')
  end.


(** The code units a normalised district name is made of. *)
Definition district_char (c : ascii) : bool :=
  Chr.is_lower_az c || Ascii.eqb c " ".

Definition normal_name (k : string) : Prop :=
  all_chars district_char k = true ∧ Str.trim k = k.

(** *** The regions document

    The district values a regions document lists, each with its region,
    in the order in which the table is filled. *)
Definition entry_region (entry : @json num) : json :=
  prop entry "region" ||| prop entry "name" ||| prop entry "label".

Definition entry_districts (entry : @json num) : json :=
  prop entry "districts" ||| prop entry "items" ||| JArr [].

Definition entry_pairs (entry : @json num) : list (@json num * string) :=
  if truthy (entry_region entry) && isArray (entry_districts entry)
  then (λ d, (d, ToString (entry_region entry))) <$> array_items (entry_districts entry)
  else [].

(** The list of entries read from a document of the second or third
    shape. *)
Definition region_entries (doc : @json num) : option (list json) :=
  if truthy doc && is_object doc then
    if truthy (prop doc "districtToRegion") && is_object (prop doc "districtToRegion")
    then None
    else if isArray (prop doc "mappings") then Some (array_items (prop doc "mappings"))
    else if isArray (prop doc "regions") then Some (array_items (prop doc "regions"))
    else None
  else None.

Definition listed_districts (doc : @json num) : list (@json num * string) :=
  if truthy doc && is_object doc then
    if truthy (prop doc "districtToRegion") && is_object (prop doc "districtToRegion")
    then (λ dr, (JStr dr.1, ToString dr.2)) <$> spread (prop doc "districtToRegion")
    else
      match region_entries doc with
      | Some entries => entries ≫= entry_pairs
      | None =>
          spread doc ≫= (λ rv, match rv.2 with
                               | JArr districts => (λ d, (d, rv.1)) <$> districts
                               | _ => []
                               end)
      end
  else [].

(** The region of the last listed district with a given normalised name. *)
Definition last_region (k : string) (pairs : list (@json num * string)) : option string :=
  snd <$> last (filter (λ p, normalizeDistrictName p.1 = k) pairs).

(** A table filled from listed districts, in order. *)
Definition fill (m : gmap string string) (pairs : list (@json num * string))
  : gmap string string :=
  fold_left (λ m p, <[normalizeDistrictName p.1 := p.2]> m) pairs m.


(** *** Fiber features *)

Definition fiber_geometry_type (t : @json num) : bool :=
  is_str "Point" t || is_str "LineString" t || is_str "MultiLineString" t.

Definition feature_kinds : list (@json num) :=
  [JNull; JStr "fiber_line"; JStr "telecom_site"; JStr "telecom_cabinet";
   JStr "telecom_pole"].

(** What a feature of the fiber output looks like. *)
Definition fiber_feature (f : @json num) : Prop :=
  prop f "type" = JStr "Feature"
  ∧ fiber_geometry_type (prop (prop f "geometry") "type") = true
  ∧ prop (prop f "properties") "feature_type" ∈ feature_kinds
  ∧ prop (prop f "properties") "source" = JStr "OpenStreetMap".


(** *** School features *)


Definition point_geometry (f : @json num) : Prop :=
  prop (prop f "geometry") "type" = JStr "Point".



(** *** Classifier and field detection *)

(** A text ends a word at its start: it is empty or starts with a code
    unit that is not a word character. *)
Definition word_end (b : string) : bool :=
  match b with
  | EmptyString => true
  | String c _ => negb (Chr.is_word c)
  end.



(** *** Front end *)

(** A feature passes a selection: nothing is selected, or its property
    is a selected text. *)
Definition selected_ok (selected : gset string) (v : @json num) : Prop :=
  selected = ∅ ∨ ∃ s, v = JStr s ∧ s ∈ selected.

(** A feature passes the search: the query is blank, or the lower-cased
    name contains it. *)
Definition search_ok (q : string) (name : @json num) : Prop :=
  q = "" ∨ ∃ s, name ||| JStr "" = JStr s ∧ includes (Str.toLowerCase s) q = true.


(** The code units a normalised key is made of. *)
Definition key_char (c : ascii) : bool :=
  Chr.is_lower_az c || Chr.is_digit c || Ascii.eqb c "_".

(** The property names [rowsToGeoJSON] gives a feature. *)
Definition csv_property_names : list string := ["name"; "ownership"; "gender"; "district"].


End Vocabulary.

(** * Inputs of the examples *)

Definition quoted (s : string) : string := str1 DQUOTE +:+ s +:+ str1 DQUOTE.

(** A number given by its decimal numeral. *)
Definition dec (numeral : string) : @json refnum := JNum (refnum_of_string numeral).

Definition endpoints3 : list string :=
  ["https://a.example/api"; "https://b.example/api"; "https://c.example/api"].

(** A network on which every request is refused. *)
Definition net_down : @network refnum :=
  λ _ _, Throw (Error "connect ECONNREFUSED").

(** A network that answers 504 twice and then delivers an empty result. *)
Definition net_third : @network refnum :=
  λ attempt _,
    if attempt <? 3 then
      Ok {| ok := false; status := 504; statusText := "Gateway Timeout";
            text := Ok "busy"; body_json := Throw (Error "Unexpected token") |}
    else
      Ok {| ok := true; status := 200; statusText := "OK";
            text := Ok "{}"; body_json := Ok (JObj [("elements", JArr [])]) |}.

Definition vertex (lat lon : string) : @json refnum :=
  JObj [("lat", dec lat); ("lon", dec lon)].

(** A relation with a member node and two member ways of two and three
    vertices. *)
Definition relation_two_ways : @json refnum :=
  JObj [("type", JStr "relation"); ("id", n_ 42);
        ("tags", JObj [("cable", JStr "telecom"); ("cable:medium", JStr "Fibre")]);
        ("members",
         JArr [JObj [("type", JStr "node"); ("ref", n_ 1); ("role", JStr "")];
               JObj [("type", JStr "way"); ("ref", n_ 2);
                     ("geometry", JArr [vertex "0.3" "32.5"; vertex "0.4" "32.6"])];
               JObj [("type", JStr "way"); ("ref", n_ 3);
                     ("geometry", JArr [vertex "0.4" "32.6"; vertex "0.5" "32.7";
                                        vertex "0.6" "32.8"])]])].

(** A way whose vertex carries its coordinates as text. *)
Definition way_text_vertex : @json refnum :=
  JObj [("type", JStr "way"); ("id", n_ 7);
        ("tags", JObj [("cable", JStr "telecom"); ("cable:medium", JStr "fibre")]);
        ("geometry", JArr [JObj [("lat", JStr "0.3"); ("lon", JStr "32.5")]])].

Definition multipoint_sample : @json refnum :=
  JObj [("type", JStr "MultiPoint");
        ("coordinates", JArr [JArr [n_ 0; n_ 0]; JArr [n_ 4; n_ 8]])].

Definition linestring_feature : @json refnum :=
  JObj [("type", JStr "Feature");
        ("geometry",
         JObj [("type", JStr "LineString");
               ("coordinates", JArr [JArr [n_ 0; n_ 0]; JStr "gap"; JArr [n_ 4; n_ 8]])]);
        ("properties", JObj [("name", JStr "Hill School")])].

Definition table_gulu : gmap string string := {[ "gulu" := "Northern" ]}.

(** A table with an entry under the empty name, as a district listed
    as "District 9" leaves behind. *)
Definition table_blank : gmap string string :=
  {[ (normalizeDistrictName (JStr "District 9" : @json refnum)) := "Central" ]}.

Definition csv_ragged : string :=
  "Name,Lat,,Lng" +:+ str1 CR +:+ str1 LF +:+ "A,1" +:+ str1 LF +:+ "  " +:+ str1 LF
  +:+ "B,2,x,3,extra" +:+ str1 LF.


Definition csv_school : string :=
  "Name,Lat,Lng,Ownership" +:+ str1 LF +:+ "St. Mary's,0.3,32.5,Government".

Definition remote_text : string :=
  "[{" +:+ quoted "type" +:+ ":" +:+ quoted "Feature" +:+ ","
  +:+ quoted "geometry" +:+ ":{" +:+ quoted "type" +:+ ":" +:+ quoted "Point" +:+ ","
  +:+ quoted "coordinates" +:+ ":[32.5,0.3]},"
  +:+ quoted "properties" +:+ ":{" +:+ quoted "name" +:+ ":" +:+ quoted "Remote High" +:+ "}}]".

Definition remote_json : @json refnum :=
  JArr [JObj [("type", JStr "Feature");
              ("geometry", JObj [("type", JStr "Point");
                                 ("coordinates", JArr [dec "32.5"; dec "0.3"])]);
              ("properties", JObj [("name", JStr "Remote High")])]].

Definition overpass_text : string := "{" +:+ quoted "elements" +:+ ":[]}".

Definition overpass_json : @json refnum := JObj [("elements", JArr [])].

(** [JSON.parse] on the texts of the examples; any other text they
    contain is not JSON. *)
Definition sample_parse (text : string) : option (@json refnum) :=
  if String.eqb text remote_text then Some remote_json
  else if String.eqb text overpass_text then Some overpass_json
  else None.

Definition sample_fetch (url method : string) : result string :=
  if String.eqb url "https://data.example/schools.json" then Ok remote_text
  else if String.eqb url "https://overpass-api.de/api/interpreter" then Ok overpass_text
  else Throw (Error "getaddrinfo ENOTFOUND").

(** A local JSON file that does not parse, next to a working remote
    dataset and a working Overpass server. *)
Definition world_shadowed : @world refnum :=
  {| file name :=
       if String.eqb name "official_secondary_schools.json" then Some "schools: TODO"
       else None;
     getenv key :=
       if String.eqb key "OFFICIAL_SCHOOLS_URL" then JStr "https://data.example/schools.json"
       else JUndef;
     fetchText := sample_fetch |}.

(** A local CSV file with one school; nothing else is configured. *)
Definition world_local_csv : @world refnum :=
  {| file name :=
       if String.eqb name "official_secondary_schools.csv" then Some csv_school else None;
     getenv _ := JUndef;
     fetchText := sample_fetch |}.


(** What a run on [world_local_csv] writes. *)
Definition school_output : @output refnum :=
  {| features :=
       [Feature (Point (JArr [dec "32.5"; dec "0.3"]))
          (JObj [("name", JStr "St. Mary's"); ("ownership", JStr "government");
                 ("gender", JStr "unknown"); ("district", JNull); ("region", JNull)])];
     meta_source := "official-local" |}.


(** A regions document that lists Gulu twice, under differently written
    names, and the table built from it. *)
Definition regions_doc : @json refnum :=
  JObj [("mappings",
         JArr [JObj [("region", JStr "Northern");
                     ("districts", JArr [JStr "Gulu District"; JStr "Kitgum"])];
               JObj [("name", JStr "Acholi"); ("items", JArr [JStr " GULU "])]])].

Definition regions_table : gmap string string :=
  {[ "gulu" := "Acholi"; "kitgum" := "Northern" ]}.

(** A run whose regions file lists a null entry. *)
Definition regions_null_text : string := "{" +:+ quoted "regions" +:+ ":[null]}".

Definition regions_parse (text : string) : option (@json refnum) :=
  if String.eqb text regions_null_text then Some (JObj [("regions", JArr [JNull])])
  else sample_parse text.

Definition world_null_region : @world refnum :=
  {| file name :=
       if String.eqb name "regions.json" then Some regions_null_text
       else file world_local_csv name;
     getenv _ := JUndef;
     fetchText := sample_fetch |}.


(** A telecom exchange mapped as a node, and an Overpass answer that
    holds it next to a null element. *)
Definition node_exchange : @json refnum :=
  JObj [("type", JStr "node"); ("id", n_ 9);
        ("lon", dec "32.58"); ("lat", dec "0.31");
        ("tags", JObj [("telecom", JStr "Exchange")])].

Definition fiber_elements : list (@json refnum) :=
  [relation_two_ways; node_exchange; JObj [("type", JStr "node"); ("id", n_ 10)]].


(** * Properties *)

Section Properties.

Context {num : Type} `{!JSNumber num}.
Variable JSON_parse : string → option (@json num).

(** ** Strings and regular expressions *)

Lemma Chr_toLowerCase_idem c : Chr.toLowerCase (Chr.toLowerCase c) = Chr.toLowerCase c.
Proof.
  destruct c as [[] [] [] [] [] [] [] []]; vm_compute; reflexivity.
Qed.

Lemma Str_toLowerCase_idem s : Str.toLowerCase (Str.toLowerCase s) = Str.toLowerCase s.
Proof.
  induction s as [|c s IH]; [reflexivity|].
  unfold Str.toLowerCase in *; simpl. now rewrite Chr_toLowerCase_idem, IH.
Qed.

Lemma Str_is_empty_false s : Str.is_empty s = false ↔ s ≠ EmptyString.
Proof. destruct s; simpl; split; congruence. Qed.

(** A regular expression that matches at no position is never found by
    a global scan. *)
Lemma match_count_never r :
  (∀ st, Re.step r st = []) → ∀ s, Re.match_count r s = 0.
Proof.
  intros Hr s. unfold Re.match_count. generalize (@None ascii).
  induction s as [|c s IH]; intros prev; simpl; rewrite Hr; [reflexivity|].
  apply IH.
Qed.

Lemma step_re_delimiter d st : Re.step (re_delimiter d) st = [].
Proof. destruct st as [prev [|c rest]]; reflexivity. Qed.

(** ** The CSV delimiter sniffer *)

Lemma detectCSVDelimiter_constant sample : detectCSVDelimiter sample = ",".
Proof.
  unfold detectCSVDelimiter. simpl.
  rewrite !match_count_never by apply step_re_delimiter. reflexivity.
Qed.

(** C5.  [detectCSVDelimiter] does not pick the most frequent candidate:
    the pattern it counts with never matches, so every count is 0 and
    the answer is the comma for every sample, also for one whose only
    candidate delimiters are semicolons. *)
Theorem detectCSVDelimiter_semicolons :
  detectCSVDelimiter ("name;lat;lon" +:+ str1 LF +:+ "A;1;2") = ","
  ∧ Re.match_count (Re.lit ";") ("name;lat;lon" +:+ str1 LF +:+ "A;1;2") = 4
  ∧ ∀ sample, detectCSVDelimiter sample = ",".
Proof.
  split; [reflexivity|]. split; [reflexivity|]. apply detectCSVDelimiter_constant.
Qed.

(** ** The free-text classifiers *)

Lemma truthy_JStr s : truthy (JStr s : @json num) = negb (Str.is_empty s).
Proof. reflexivity. Qed.

Lemma guessOwnership_cases v :
  let s := Str.toLowerCase (ToString v) in
  guessOwnership v = "unknown"
  ∨ guessOwnership v = "government"
  ∨ guessOwnership v = "private"
  ∨ guessOwnership v = "religious"
  ∨ (truthy v = true ∧ guessOwnership v = s ∧ s ≠ ""
     ∧ Re.test re_government s = false ∧ Re.test re_private s = false
     ∧ Re.test re_religious s = false).
Proof.
  intros s. unfold guessOwnership. fold s.
  destruct (truthy v); simpl; [|tauto].
  destruct (Re.test re_government s) eqn:E1; [tauto|].
  destruct (Re.test re_private s) eqn:E2; [tauto|].
  destruct (Re.test re_religious s) eqn:E3; [tauto|].
  destruct (Str.is_empty s) eqn:E4; [tauto|].
  apply Str_is_empty_false in E4. tauto.
Qed.

Lemma guessGender_cases v :
  let s := Str.toLowerCase (ToString v) in
  guessGender v = "unknown"
  ∨ guessGender v = "boys"
  ∨ guessGender v = "girls"
  ∨ guessGender v = "mixed"
  ∨ (truthy v = true ∧ guessGender v = s ∧ s ≠ ""
     ∧ Re.test re_boys s = false ∧ Re.test re_girls s = false
     ∧ Re.test re_mixed s = false).
Proof.
  intros s. unfold guessGender. fold s.
  destruct (truthy v); simpl; [|tauto].
  destruct (Re.test re_boys s) eqn:E1; [tauto|].
  destruct (Re.test re_girls s) eqn:E2; [tauto|].
  destruct (Re.test re_mixed s) eqn:E3; [tauto|].
  destruct (Str.is_empty s) eqn:E4; [tauto|].
  apply Str_is_empty_false in E4. tauto.
Qed.

Lemma guessOwnership_nonempty v : guessOwnership v ≠ "".
Proof.
  destruct (guessOwnership_cases v) as [H|[H|[H|[H|(_ & H & Hs & _)]]]];
    rewrite H; try discriminate. exact Hs.
Qed.

Lemma guessGender_nonempty v : guessGender v ≠ "".
Proof.
  destruct (guessGender_cases v) as [H|[H|[H|[H|(_ & H & Hs & _)]]]];
    rewrite H; try discriminate. exact Hs.
Qed.

Lemma guessOwnership_fixed v :
  guessOwnership (JStr (guessOwnership v)) = guessOwnership v.
Proof.
  destruct (guessOwnership_cases v) as [H|[H|[H|[H|(_ & H & Hs & E1 & E2 & E3)]]]];
    rewrite H; try reflexivity.
  unfold guessOwnership at 1. rewrite truthy_JStr.
  apply Str_is_empty_false in Hs. rewrite Hs. simpl.
  rewrite Str_toLowerCase_idem, E1, E2, E3, Hs. reflexivity.
Qed.

Lemma guessGender_fixed v :
  guessGender (JStr (guessGender v)) = guessGender v.
Proof.
  destruct (guessGender_cases v) as [H|[H|[H|[H|(_ & H & Hs & E1 & E2 & E3)]]]];
    rewrite H; try reflexivity.
  unfold guessGender at 1. rewrite truthy_JStr.
  apply Str_is_empty_false in Hs. rewrite Hs. simpl.
  rewrite Str_toLowerCase_idem, E1, E2, E3, Hs. reflexivity.
Qed.

(** ** Property lists *)

Lemma obj_get_set_eq (p : list (string * @json num)) k v :
  obj_get (obj_set p k v) k = v.
Proof.
  induction p as [|[k' v'] p IH]; simpl.
  - now rewrite String.eqb_refl.
  - destruct (String.eqb k' k) eqn:E; simpl.
    + now rewrite String.eqb_refl.
    + now rewrite E.
Qed.

Lemma obj_get_set_ne (p : list (string * @json num)) k k' v :
  k ≠ k' → obj_get (obj_set p k v) k' = obj_get p k'.
Proof.
  intros Hne. induction p as [|[k0 v0] p IH]; simpl.
  - apply String.eqb_neq in Hne. now rewrite Hne.
  - destruct (String.eqb k0 k) eqn:E; simpl.
    + apply String.eqb_eq in E. subst k0.
      apply String.eqb_neq in Hne. now rewrite Hne.
    + now rewrite IH.
Qed.

Ltac obj_simpl :=
  repeat first
    [ rewrite obj_get_set_eq
    | rewrite obj_get_set_ne by discriminate ].

(** ** Enrichment *)

Lemma enrichProperties_ownership p d2r :
  obj_get (enrichProperties p d2r) "ownership" = JStr (guessOwnership (ownership_tag p)).
Proof. unfold enrichProperties. cbv zeta. obj_simpl. reflexivity. Qed.

Lemma enrichProperties_gender p d2r :
  obj_get (enrichProperties p d2r) "gender"
  = JStr (guessGender
            (obj_get (obj_set p "ownership" (JStr (guessOwnership (ownership_tag p)))) "gender"
             ||| obj_get p "gender_of_students" ||| obj_get p "sex")).
Proof. unfold enrichProperties. cbv zeta. obj_simpl. reflexivity. Qed.


Lemma or_else_truthy (a b : @json num) : truthy a = true → a ||| b = a.
Proof. unfold or_else. now intros ->. Qed.

Lemma truthy_nonempty s : s ≠ "" → truthy (JStr s : @json num) = true.
Proof. intros H. apply Str_is_empty_false in H. simpl. now rewrite H. Qed.

Lemma enrichProperties_gender' p d2r :
  obj_get (enrichProperties p d2r) "gender" = JStr (guessGender (gender_tag p)).
Proof. rewrite enrichProperties_gender. obj_simpl. reflexivity. Qed.

(** C10.  The classifiers are idempotent: for every input value [v],
    in particular for every string, classifying the result again gives
    the same result, so enriching already enriched properties leaves
    the ownership and gender fields as they are. *)
Theorem classifiers_idempotent (v : @json num) (p : list (string * @json num))
  (d2r : gmap string string) :
  guessOwnership (JStr (guessOwnership v) : @json num) = guessOwnership v
  ∧ guessGender (JStr (guessGender v) : @json num) = guessGender v
  ∧ obj_get (enrichProperties (enrichProperties p d2r) d2r) "ownership"
    = obj_get (enrichProperties p d2r) "ownership"
  ∧ obj_get (enrichProperties (enrichProperties p d2r) d2r) "gender"
    = obj_get (enrichProperties p d2r) "gender".
Proof.
  split; [apply guessOwnership_fixed|]. split; [apply guessGender_fixed|].
  split.
  - rewrite (enrichProperties_ownership (enrichProperties p d2r)).
    unfold ownership_tag at 1. rewrite enrichProperties_ownership.
    rewrite !(or_else_truthy (JStr (guessOwnership _)))
      by (apply truthy_nonempty, guessOwnership_nonempty).
    now rewrite guessOwnership_fixed.
  - rewrite (enrichProperties_gender' (enrichProperties p d2r)).
    unfold gender_tag at 1. rewrite enrichProperties_gender'.
    rewrite !(or_else_truthy (JStr (guessGender _)))
      by (apply truthy_nonempty, guessGender_nonempty).
    now rewrite guessGender_fixed.
Qed.

(** ** Region resolution *)

Lemma region_of_with_district d2r p d :
  d ≠ "" →
  region_of d2r (with_district p d)
  = let region := obj_get p "region" ||| obj_get p "ADM1_NAME" ||| obj_get p "province"
                  ||| JNull in
    if truthy region then region
    else table_get d2r (normalizeDistrictName (JStr d)) ||| JNull.
Proof.
  intros Hd. unfold region_of, with_district, enrichProperties. cbv zeta.
  obj_simpl.
  rewrite !(or_else_truthy (JStr d)) by now apply truthy_nonempty.
  rewrite (truthy_nonempty d Hd).
  destruct (truthy _); reflexivity.
Qed.

(** C8 (amended).  For every lookup table and every record, two
    non-empty district texts with the same normalised form resolve to
    the same region; so do the texts "Kampala District" and
    "  kampala ", whose normalised form is "kampala". *)
Theorem region_invariant (d2r : gmap string string) (p : list (string * @json num)) :
  region_of d2r (with_district p "Kampala District")
  = region_of d2r (with_district p "  kampala ")
  ∧ ∀ d1 d2 : string,
      d1 ≠ "" → d2 ≠ "" →
      normalizeDistrictName (JStr d1 : @json num) = normalizeDistrictName (JStr d2 : @json num) →
      region_of d2r (with_district p d1) = region_of d2r (with_district p d2).
Proof.
  assert (G : ∀ d1 d2 : string,
      d1 ≠ "" → d2 ≠ "" →
      normalizeDistrictName (JStr d1 : @json num) = normalizeDistrictName (JStr d2 : @json num) →
      region_of d2r (with_district p d1) = region_of d2r (with_district p d2)).
  { intros d1 d2 H1 H2 Hn. rewrite !region_of_with_district by assumption.
    now rewrite Hn. }
  split; [|exact G].
  apply G; [discriminate | discriminate | reflexivity].
Qed.

(** ** The CSV reader *)








(** ** Fiber geometries *)

Lemma is_str_true text (v : @json num) : is_str text v = true → v = JStr text.
Proof.
  destruct v; simpl; try discriminate. intros H. apply String.eqb_eq in H. now subst.
Qed.

Lemma get_not_nullish (v : @json num) k : is_nullish v = false → get v k = Ok (prop v k).
Proof. destruct v; simpl; (discriminate || reflexivity). Qed.

Lemma vertices_ok (g : list (@json num)) :
  Forall (λ p, is_nullish p = false) g → vertices g = Ok (JArr (vertex_pair <$> g)).
Proof.
  unfold vertices. intros H.
  enough (E : rmap (λ p, lon ← get p "lon"; Ok (JArr [lon; prop p "lat"])) g
              = Ok (vertex_pair <$> g)) by now rewrite E.
  induction H as [|p g Hp _ IH]; [reflexivity|].
  simpl. rewrite (get_not_nullish _ _ Hp). simpl. rewrite IH. reflexivity.
Qed.

Lemma member_line_ok (m : @json num) :
  is_nullish m = false →
  (carries_geometry m = true → Forall (λ p, is_nullish p = false) (array_items (prop m "geometry"))) →
  member_line m = Ok (if carries_geometry m then Some (way_line m) else None).
Proof.
  intros Hm Hg. unfold member_line, carries_geometry in *.
  rewrite (get_not_nullish _ _ Hm). simpl.
  destruct (prop m "geometry") as [| | | | |g|] eqn:Eg;
    rewrite ?andb_false_r; try reflexivity.
  simpl in *. rewrite andb_true_r in *.
  destruct (is_str "way" (prop m "type")); [|reflexivity].
  rewrite (vertices_ok g (Hg eq_refl)). unfold way_line. rewrite Eg. reflexivity.
Qed.

Lemma member_lines_ok (ms : list (@json num)) :
  Forall (λ m, is_nullish m = false) ms →
  Forall (λ m, Forall (λ p, is_nullish p = false) (array_items (prop m "geometry")))
    (filter (λ m, carries_geometry m = true) ms) →
  rfilter_map member_line ms = Ok (way_line <$> filter (λ m, carries_geometry m = true) ms).
Proof.
  induction 1 as [|m ms Hm _ IH]; intros Hg; [reflexivity|].
  rewrite filter_cons in *. simpl.
  destruct (carries_geometry m) eqn:Ec.
  - rewrite decide_True in * by reflexivity. apply Forall_cons in Hg as [Hg1 Hg2].
    rewrite member_line_ok, Ec by (assumption || (intros _; assumption)).
    simpl. rewrite (IH Hg2). reflexivity.
  - rewrite decide_False in * by discriminate.
    rewrite member_line_ok, Ec by (assumption || (intros ?; congruence)).
    simpl. rewrite (IH Hg). reflexivity.
Qed.

Lemma element_geometry_relation (el : @json num) :
  osm_relation el →
  element_geometry el
  = Ok (match geometric_members el with
        | [] => JNull
        | [m] => LineString (way_line m)
        | ms => MultiLineString (way_line <$> ms)
        end).
Proof.
  intros (Ht & Hm & Hg). unfold element_geometry, geometric_members in *.
  rewrite (is_str_true _ _ Ht). simpl.
  destruct (prop el "members") as [| | | | |ms|] eqn:Em; try reflexivity.
  simpl in *. rewrite (member_lines_ok ms Hm Hg). simpl.
  destruct (filter _ ms) as [|m1 [|m2 ms']]; reflexivity.
Qed.

Lemma elementToGeoJSONFeature_relation (el : @json num) :
  osm_relation el →
  elementToGeoJSONFeature el
  = match geometric_members el with
    | [] => Ok JNull
    | _ =>
        let tags := prop el "tags" ||| JObj [] in
        Ok (JObj [("type", JStr "Feature");
                  ("id", JStr (ToString (prop el "type") +:+ "/" +:+ ToString (prop el "id")));
                  ("geometry",
                   match geometric_members el with
                   | [m] => LineString (way_line m)
                   | ms => MultiLineString (way_line <$> ms)
                   end);
                  ("properties",
                   JObj (commonProps el tags
                         ++ [("feature_type", featureType el tags); ("tags", tags)]))])
    end.
Proof.
  intros H. pose proof (element_geometry_relation el H) as Eg.
  destruct H as (Ht & _). unfold elementToGeoJSONFeature.
  rewrite get_not_nullish by (destruct el; (discriminate || reflexivity)).
  change (Ok ?a ≫= ?k) with (k a). cbv beta zeta. rewrite Eg.
  change (Ok ?a ≫= ?k) with (k a). cbv beta.
  destruct (geometric_members el) as [|m1 [|m2 ms]]; reflexivity.
Qed.

(** C3.  For an OSM relation element, the geometry the fiber
    normaliser emits is decided by the member ways that carry geometry,
    taken in member order (the other members are skipped): none, and
    no feature is emitted; exactly one, and the feature has the
    LineString of that way; two or more, and it has the MultiLineString
    with one line per such way. *)
Theorem relation_geometry (el : @json num) :
  osm_relation el →
  match geometric_members el with
  | [] =>
      elementToGeoJSONFeature el = Ok JNull ∧ buildFeatureCollection [el] = Ok []
  | [m] =>
      ∃ f, elementToGeoJSONFeature el = Ok f ∧ buildFeatureCollection [el] = Ok [f]
           ∧ prop f "geometry" = LineString (way_line m)
  | ms =>
      ∃ f, elementToGeoJSONFeature el = Ok f ∧ buildFeatureCollection [el] = Ok [f]
           ∧ prop f "geometry" = MultiLineString (way_line <$> ms)
  end.
Proof.
  intros H. pose proof (elementToGeoJSONFeature_relation el H) as E.
  unfold buildFeatureCollection. simpl rfilter_map. rewrite E.
  destruct (geometric_members el) as [|m1 [|m2 ms]].
  - split; reflexivity.
  - eexists. split; [reflexivity|]. split; reflexivity.
  - eexists. split; [reflexivity|]. split; reflexivity.
Qed.

(** ** Centroids *)

Lemma centroid_fold (cs : list (@json num)) sx sy n :
  fold_left (λ '(sx, sy, n) c,
               match numeric_pair c with
               | Some (x, y) => (num_add sx x, num_add sy y, S n)
               | None => (sx, sy, n)
               end)
    cs (sx, sy, n)
  = (fold_left num_add (pairs_in cs).*1 sx, fold_left num_add (pairs_in cs).*2 sy,
     n + length (pairs_in cs)).
Proof.
  revert sx sy n. induction cs as [|c cs IH]; intros sx sy n; simpl.
  - now rewrite Nat.add_0_r.
  - unfold pairs_in in *. simpl. destruct (numeric_pair c) as [[x y]|]; simpl.
    + rewrite IH. now rewrite Nat.add_succ_r.
    + apply IH.
Qed.

Lemma basicCentroid_array (items : list (@json num)) :
  basicCentroid (JArr items) = Ok (mean_point (pairs_in items)).
Proof.
  unfold basicCentroid. simpl iterate. change (Ok ?a ≫= ?k) with (k a). cbv beta.
  rewrite centroid_fold. unfold mean_point, sum.
  destruct (pairs_in items); reflexivity.
Qed.

Lemma coordinate_depth_cases (t : @json num) d :
  coordinate_depth t = Some d →
  (t = JStr "LineString" ∧ d = 0) ∨ (t = JStr "MultiLineString" ∧ d = 1)
  ∨ (t = JStr "Polygon" ∧ d = 1) ∨ (t = JStr "MultiPolygon" ∧ d = 2).
Proof.
  unfold coordinate_depth.
  destruct (is_str "LineString" t) eqn:E1;
    [apply is_str_true in E1; intros [= <-]; tauto|].
  destruct (is_str "MultiLineString" t) eqn:E2;
    [apply is_str_true in E2; intros [= <-]; tauto|].
  destruct (is_str "Polygon" t) eqn:E3;
    [apply is_str_true in E3; intros [= <-]; tauto|].
  destruct (is_str "MultiPolygon" t) eqn:E4;
    [apply is_str_true in E4; intros [= <-]; tauto|].
  discriminate.
Qed.

Lemma toPointGeometry_depth (g : @json num) items d :
  prop g "coordinates" = JArr items →
  coordinate_depth (prop g "type") = Some d →
  toPointGeometry g = Ok (Point (mean_point (pairs_in (flat d items)))).
Proof.
  intros Hc Hd.
  assert (Hg : truthy g = true) by (destruct g; (discriminate || reflexivity)).
  unfold toPointGeometry. rewrite Hg, Hc. simpl negb. cbv iota zeta.
  destruct (coordinate_depth_cases _ _ Hd) as [[-> ->]|[[-> ->]|[[-> ->]|[-> ->]]]];
    simpl; rewrite basicCentroid_array; reflexivity.
Qed.

Lemma mean_point_shape (ps : list (num * num)) :
  match ps with
  | [] => mean_point ps = JNull
  | _ => ∃ x y, mean_point ps = JArr [JNum x; JNum y]
  end.
Proof. destruct ps; simpl; eauto. Qed.

Lemma coerceToPoints_cons (f g : @json num) rest :
  get f "geometry" = Ok g →
  ∀ c, toPointGeometry g = Ok (Point c) →
  coerceToPoints (f :: rest)
  = match c with
    | JArr items =>
        if some_not_number items then coerceToPoints rest
        else cons (Feature (Point c) (prop f "properties" ||| JObj [])) <$> coerceToPoints rest
    | _ => coerceToPoints rest
    end.
Proof.
  intros Hf c Hg. unfold coerceToPoints. simpl rfilter_map. rewrite Hf.
  change (Ok ?a ≫= ?k) with (k a). cbv beta. rewrite Hg.
  change (Ok ?a ≫= ?k) with (k a). cbv beta. simpl.
  destruct c as [| | | | |items|]; try (simpl; destruct (rfilter_map _ rest); reflexivity).
  destruct (some_not_number items); simpl; destruct (rfilter_map _ rest); reflexivity.
Qed.

(** C6 (amended).  On the schools path a LineString, MultiLineString,
    Polygon or MultiPolygon geometry whose coordinates are an array is
    collapsed to the component-wise mean of the numeric coordinate pairs
    found at the depth of its type (the elements of the array after
    flattening 0, 1, 1 and 2 levels); when there is no such pair the
    record is dropped, otherwise it is kept with that Point.  A
    MultiPoint is replaced by its first position, not by a mean. *)
Theorem non_point_collapse (f g : @json num) (items rest : list (@json num)) :
  get f "geometry" = Ok g →
  prop g "coordinates" = JArr items →
  (∀ d, coordinate_depth (prop g "type") = Some d →
     let ps := pairs_in (flat d items) in
     toPointGeometry g = Ok (Point (mean_point ps))
     ∧ coerceToPoints (f :: rest)
       = match ps with
         | [] => coerceToPoints rest
         | _ => cons (Feature (Point (mean_point ps)) (prop f "properties" ||| JObj []))
                  <$> coerceToPoints rest
         end)
  ∧ (is_str "MultiPoint" (prop g "type") = true →
     toPointGeometry g = Ok (Point (default JUndef (head items)))).
Proof.
  intros Hf Hc. split.
  - intros d Hd ps. pose proof (toPointGeometry_depth g items d Hc Hd) as Hg.
    fold ps in Hg. split; [exact Hg|].
    rewrite (coerceToPoints_cons f g rest Hf _ Hg).
    pose proof (mean_point_shape ps) as Hs.
    destruct ps as [|p ps']; [now rewrite Hs|].
    destruct Hs as (x & y & ->). reflexivity.
  - intros Ht. apply is_str_true in Ht.
    assert (Hg : truthy g = true) by (destruct g; (discriminate || reflexivity)).
    unfold toPointGeometry. rewrite Hg, Hc, Ht. simpl.
    destruct items; reflexivity.
Qed.

(** ** Numeric coordinates *)

Lemma rfilter_map_Forall {A B} (f : A → result (option B)) (P : B → Prop) xs ys :
  (∀ x y, f x = Ok (Some y) → P y) →
  rfilter_map f xs = Ok ys → Forall P ys.
Proof.
  intros Hf. revert ys. induction xs as [|x xs IH]; simpl; intros ys H.
  - injection H as <-. constructor.
  - destruct (f x) as [[y|]|e] eqn:Ex; simpl in H; try discriminate;
      destruct (rfilter_map f xs) as [ys'|e'] eqn:Exs; simpl in H; try discriminate;
      injection H as <-; auto.
    constructor; eauto.
Qed.

Lemma omap_Forall {A B} (f : A → option B) (P : B → Prop) xs :
  (∀ x y, f x = Some y → P y) → Forall P (omap f xs).
Proof.
  intros Hf. induction xs as [|x xs IH]; simpl; [constructor|].
  destruct (f x) eqn:Ex; [constructor; eauto|exact IH].
Qed.

Lemma all_numbers_leaves (items : list (@json num)) :
  some_not_number items = false → leaves_numeric (JArr items) = true.
Proof.
  unfold some_not_number. simpl. induction items as [|x items IH]; simpl; [reflexivity|].
  intros H. apply orb_false_iff in H as [Hx H]. rewrite (IH H), andb_true_r.
  destruct x; simpl in *; (discriminate || reflexivity).
Qed.

(** The schools path validates: [coerceToPoints] keeps only geometries
    whose coordinates are all numbers. *)
Lemma coerceToPoints_numeric (fc out : list (@json num)) :
  coerceToPoints fc = Ok out → Forall (λ f, numeric_geometry f = true) out.
Proof.
  apply rfilter_map_Forall. intros f y H.
  destruct (get f "geometry") as [g|] eqn:Eg; [|discriminate].
  change (Ok ?a ≫= ?k) with (k a) in H. cbv beta in H.
  destruct (toPointGeometry g) as [geom|] eqn:Ep; [|discriminate].
  change (Ok ?a ≫= ?k) with (k a) in H. cbv beta in H.
  destruct (truthy geom) eqn:Et; [|discriminate]. simpl in H.
  destruct (prop geom "coordinates") as [| | | | |items|] eqn:Ec; try discriminate.
  destruct (some_not_number items) eqn:Es; [discriminate|].
  injection H as <-. unfold numeric_geometry, Feature. simpl.
  rewrite Et, Ec. simpl andb. now apply all_numbers_leaves.
Qed.

Lemma toNumber_cases (v : @json num) :
  is_nullish (toNumber v) = false → is_number (toNumber v) = true.
Proof. unfold toNumber. destruct (num_is_finite _); simpl; congruence. Qed.

(** So does [rowsToGeoJSON]: a row whose latitude or longitude is not a
    finite number gives no feature. *)
Lemma rowsToGeoJSON_numeric (rows : list (list (string * @json num))) out :
  rowsToGeoJSON rows = Ok out → Forall (λ f, numeric_geometry f = true) out.
Proof.
  unfold rowsToGeoJSON. destruct rows as [|first rest]; [intros [= <-]; constructor|].
  cbv zeta. destruct (_ || _); [discriminate|]. intros H.
  apply (f_equal (λ r, match r with Ok x => x | Throw _ => [] end)) in H.
  cbv beta iota in H. rewrite <- H.
  apply omap_Forall. clear H. intros r y H.
  destruct (is_nullish (toNumber (at_key r _))) eqn:E1; [discriminate|].
  rewrite orb_false_l in H.
  destruct (is_nullish (toNumber (at_key r _))) eqn:E2 in H; [discriminate|].
  injection H as <-. apply toNumber_cases in E1, E2.
  unfold numeric_geometry, Feature, Point. simpl.
  destruct (toNumber _), (toNumber _); simpl in *; (discriminate || reflexivity).
Qed.

(** And so does the node branch of the fiber script. *)
Lemma element_geometry_node (el : @json num) g :
  is_str "node" (prop el "type") = true →
  element_geometry el = Ok g →
  g = JNull ∨ (g = Point (JArr [prop el "lon"; prop el "lat"])
               ∧ leaves_numeric (prop g "coordinates") = true).
Proof.
  intros Ht. unfold element_geometry. rewrite (is_str_true _ _ Ht). simpl.
  destruct (is_number (prop el "lon")) eqn:E1; simpl.
  - destruct (is_number (prop el "lat")) eqn:E2; simpl; intros [= <-]; [right|now left].
    split; [reflexivity|]. simpl.
    destruct (prop el "lon"), (prop el "lat"); (discriminate || reflexivity).
  - intros [= <-]. now left.
Qed.

(** The way branch copies the [lon] and [lat] of every vertex as it
    finds them, one pair per vertex in input order. *)
Lemma element_geometry_way (el : @json num) g :
  is_str "way" (prop el "type") = true →
  prop el "geometry" = JArr g →
  Forall (λ p, is_nullish p = false) g →
  element_geometry el = Ok (LineString (JArr (vertex_pair <$> g))).
Proof.
  intros Ht Hg Hv. unfold element_geometry. rewrite (is_str_true _ _ Ht), Hg. simpl.
  now rewrite (vertices_ok g Hv).
Qed.

(** ** The retry coordinator *)

Lemma retry_loop_all_fail (net : @network num) endpoints remaining :
  ∀ attempt lastError,
    (∀ i, attempt ≤ i < attempt + remaining → ∃ e, outcome net endpoints i = Throw e) →
    retry_loop net endpoints remaining attempt lastError
    = (endpoint_of endpoints <$> seq attempt remaining,
       Throw (match remaining with
              | O => default (Error "Overpass query failed") lastError
              | S r =>
                  match outcome net endpoints (attempt + r) with
                  | Throw e => e
                  | Ok _ => Error "Overpass query failed"
                  end
              end)).
Proof.
  induction remaining as [|r IH]; intros attempt lastError Hfail; [reflexivity|].
  simpl retry_loop. destruct (Hfail attempt ltac:(lia)) as [e He].
  unfold outcome in He. rewrite He.
  rewrite (IH (S attempt) (Some e)) by (intros i Hi; apply Hfail; lia).
  simpl. destruct r as [|r'].
  - simpl. rewrite Nat.add_0_r. unfold outcome. now rewrite He.
  - now rewrite Nat.add_succ_r.
Qed.

Lemma retry_loop_first_success (net : @network num) endpoints remaining :
  ∀ attempt lastError n json,
    n < remaining →
    (∀ i, attempt ≤ i < attempt + n → ∃ e, outcome net endpoints i = Throw e) →
    outcome net endpoints (attempt + n) = Ok json →
    retry_loop net endpoints remaining attempt lastError
    = (endpoint_of endpoints <$> seq attempt (S n), Ok json).
Proof.
  induction remaining as [|r IH]; intros attempt lastError n json Hn Hfail Hok; [lia|].
  simpl retry_loop. destruct n as [|n'].
  - rewrite Nat.add_0_r in Hok. unfold outcome in Hok. now rewrite Hok.
  - destruct (Hfail attempt ltac:(lia)) as [e He]. unfold outcome in He. rewrite He.
    rewrite (IH (S attempt) (Some e) n' json); [reflexivity|lia| |].
    + intros i Hi. apply Hfail. lia.
    + now rewrite Nat.add_succ_comm.
Qed.

(** C1.  [postJSONWithRetry] with maximum attempt count [A >= 1]:
    attempt [i] goes to [endpoints[(i - 1) mod N]]; when every attempt
    fails it has made exactly [A] attempts and throws the error of the
    last one; when attempt [k] is the first to succeed it has made
    exactly the attempts 1 to [k] and returns the JSON payload of
    attempt [k]. *)
Theorem postJSONWithRetry_contract (net : @network num) (endpoints : list string) (A : nat) :
  1 ≤ A →
  ((∀ i, 1 ≤ i ≤ A → ∃ e, outcome net endpoints i = Throw e) →
   ∃ e, outcome net endpoints A = Throw e
        ∧ postJSONWithRetry net endpoints A = (rotation endpoints A, Throw e)
        ∧ length (postJSONWithRetry net endpoints A).1 = A)
  ∧ (∀ k json, 1 ≤ k ≤ A →
       (∀ i, 1 ≤ i < k → ∃ e, outcome net endpoints i = Throw e) →
       outcome net endpoints k = Ok json →
       postJSONWithRetry net endpoints A = (rotation endpoints k, Ok json)
       ∧ length (postJSONWithRetry net endpoints A).1 = k).
Proof.
  intros HA. unfold postJSONWithRetry, rotation. split.
  - intros Hfail. destruct (Hfail A ltac:(lia)) as [e He]. exists e.
    rewrite retry_loop_all_fail by (intros i Hi; apply Hfail; lia).
    cbn [fst]. rewrite length_fmap, length_seq.
    destruct A as [|r]; [lia|]. change (1 + r) with (S r). rewrite He.
    repeat split; reflexivity.
  - intros k json Hk Hfail Hok. destruct k as [|n]; [lia|].
    rewrite (retry_loop_first_success net endpoints A 1 None n json);
      [|lia|intros i Hi; apply Hfail; lia|exact Hok].
    cbn [fst]. rewrite length_fmap, length_seq. split; reflexivity.
Qed.

(** ** Sourcing *)

Lemma tryLoadOfficialDataset_eq (w : @world num) d2r :
  tryLoadOfficialDataset JSON_parse w d2r
  = match tryReadLocalOfficialDataset w with
    | Some (localPath, ext) =>
        ([ReadFile localPath],
         match file w localPath with
         | Some raw => official_from_file JSON_parse d2r ext raw
         | None => Throw (Error "ENOENT")
         end)
    | None =>
        if truthy (official_url w) then
          ([Fetch (ToString (official_url w))],
           fetchText w (ToString (official_url w)) "GET"
             ≫= official_from_text JSON_parse d2r)
        else ([], Ok None)
    end.
Proof.
  unfold tryLoadOfficialDataset.
  destruct (tryReadLocalOfficialDataset w) as [[localPath ext]|].
  - unfold load_local, readFileSync. destruct (file w localPath); reflexivity.
  - cbv zeta. destruct (truthy (official_url w)); [|reflexivity].
    unfold load_remote, fetch_text. simpl negb. cbv iota.
    destruct (fetchText w _ _); reflexivity.
Qed.

Lemma fetchOverpass_eq (w : @world num) :
  fetchOverpass JSON_parse w
  = ([Fetch (ToString (overpass_endpoint w))],
     fetchText w (ToString (overpass_endpoint w)) "POST" ≫= overpass_collection JSON_parse).
Proof.
  unfold fetchOverpass, fetch_text. destruct (fetchText w _ _); reflexivity.
Qed.

Lemma official_from_file_label d2r ext raw src (fc : list (@json num)) :
  official_from_file JSON_parse d2r ext raw = Ok (Some (src, fc)) → src = "official-local".
Proof.
  unfold official_from_file. destruct (String.eqb ext ".csv").
  - destruct (rowsToGeoJSON _); [|discriminate]. now intros [= <- _].
  - destruct (negb _); [discriminate|].
    destruct (coerceToPoints _); [|discriminate]. now intros [= <- _].
Qed.

Lemma official_from_text_label d2r text src (fc : list (@json num)) :
  official_from_text JSON_parse d2r text = Ok (Some (src, fc)) →
  src = "official-remote" ∨ src = "official-remote-csv".
Proof.
  unfold official_from_text. destruct (truthy _).
  - destruct (coerceToPoints _); [|discriminate]. intros [= <- _]. now left.
  - destruct (parseCSV text); [discriminate|].
    destruct (rowsToGeoJSON _); [|discriminate]. intros [= <- _]. now right.
Qed.

Lemma official_label (w : @world num) d2r src fc :
  (tryLoadOfficialDataset JSON_parse w d2r).2 = Ok (Some (src, fc)) →
  match tryReadLocalOfficialDataset w with
  | Some _ => src = "official-local"
  | None => src = "official-remote" ∨ src = "official-remote-csv"
  end.
Proof.
  rewrite tryLoadOfficialDataset_eq.
  destruct (tryReadLocalOfficialDataset w) as [[localPath ext]|].
  - cbn [snd]. destruct (file w localPath); [|discriminate].
    apply official_from_file_label.
  - destruct (truthy (official_url w)); [|discriminate]. cbn [snd].
    destruct (fetchText w _ _); [|discriminate]. apply official_from_text_label.
Qed.

Lemma main_official (w : @world num) d2r src fc :
  (tryLoadOfficialDataset JSON_parse w d2r).2 = Ok (Some (src, fc)) →
  main JSON_parse w d2r
  = ((tryLoadOfficialDataset JSON_parse w d2r).1,
     Ok {| features := fc; meta_source := src |}).
Proof.
  intros H. pose proof (official_label w d2r src fc H) as Hl.
  unfold main, try_catch.
  destruct (tryLoadOfficialDataset JSON_parse w d2r) as [t r]. cbn [snd] in H. subst r.
  change (?m ≫= ?k) with (io_bind _ _ k m). unfold io_bind.
  cbn [mret io_ret fst snd]. rewrite app_nil_r. do 2 f_equal. f_equal.
  destruct (tryReadLocalOfficialDataset w); [now subst|].
  destruct Hl; now subst.
Qed.

Lemma main_fallback (w : @world num) d2r :
  (tryLoadOfficialDataset JSON_parse w d2r).2 = Ok None
  ∨ (∃ e, (tryLoadOfficialDataset JSON_parse w d2r).2 = Throw e) →
  main JSON_parse w d2r
  = ((tryLoadOfficialDataset JSON_parse w d2r).1 ++ (fetchOverpass JSON_parse w).1,
     overpass_output d2r <$> (fetchOverpass JSON_parse w).2).
Proof.
  intros H. unfold main, try_catch.
  destruct (tryLoadOfficialDataset JSON_parse w d2r) as [t r]. cbn [snd fst] in *.
  destruct (fetchOverpass JSON_parse w) as [t' r'] eqn:Eo.
  change (?m ≫= ?k) with (io_bind _ _ k m). unfold io_bind.
  destruct H as [H|[e H]]; subst r; cbn [snd fst mret io_ret]; rewrite ?app_nil_r;
    change (?m ≫= ?k) with (io_bind _ _ k m); unfold io_bind;
    cbn [snd fst]; destruct r'; cbn [snd fst mret io_ret]; rewrite ?app_nil_r; reflexivity.
Qed.

Lemma official_from_file_enriched d2r ext raw src (fc : list (@json num)) :
  official_from_file JSON_parse d2r ext raw = Ok (Some (src, fc)) →
  ∃ fc0, fc = enrichFeatureCollection fc0 d2r
         ∧ (rowsToGeoJSON (parseCSV raw) = Ok fc0
            ∨ coerceToPoints (anyToFeatureCollection (tryParseJSON JSON_parse raw)) = Ok fc0).
Proof.
  unfold official_from_file. destruct (String.eqb ext ".csv").
  - destruct (rowsToGeoJSON _) as [fc0|]; [|discriminate]. intros [= _ <-]. eauto.
  - destruct (negb _); [discriminate|].
    destruct (coerceToPoints _) as [fc0|]; [|discriminate]. intros [= _ <-]. eauto.
Qed.

Lemma official_from_text_enriched d2r text src (fc : list (@json num)) :
  official_from_text JSON_parse d2r text = Ok (Some (src, fc)) →
  ∃ fc0, fc = enrichFeatureCollection fc0 d2r
         ∧ (rowsToGeoJSON (parseCSV text) = Ok fc0
            ∨ coerceToPoints (anyToFeatureCollection (tryParseJSON JSON_parse text)) = Ok fc0).
Proof.
  unfold official_from_text. destruct (truthy _).
  - destruct (coerceToPoints _) as [fc0|]; [|discriminate]. intros [= _ <-]. eauto.
  - destruct (parseCSV text) eqn:E; [discriminate|]. rewrite <- E.
    destruct (rowsToGeoJSON _) as [fc0|]; [|discriminate]. intros [= _ <-]. eauto.
Qed.

Lemma overpass_feature_numeric (el f : @json num) :
  overpass_feature el = Ok (Some f) → numeric_geometry f = true.
Proof.
  unfold overpass_feature. destruct (get el "type") as [type|]; [|discriminate].
  change (Ok ?a ≫= ?k) with (k a). cbv beta zeta.
  set (at_node := is_str "node" type && _ && _).
  set (at_center := truthy _ && _ && _).
  destruct at_node eqn:En.
  - subst at_node. apply andb_true_iff in En as [En E2]. apply andb_true_iff in En as [_ E1].
    destruct (prop el "lon"), (prop el "lat"); try discriminate. simpl.
    intros [= <-]. reflexivity.
  - destruct at_center eqn:Ec; [|discriminate].
    subst at_center. apply andb_true_iff in Ec as [Ec E2]. apply andb_true_iff in Ec as [_ E1].
    destruct (prop (prop el "center") "lon"), (prop (prop el "center") "lat");
      try discriminate. simpl. intros [= <-]. reflexivity.
Qed.

Lemma official_numeric (w : @world num) d2r src fc :
  (tryLoadOfficialDataset JSON_parse w d2r).2 = Ok (Some (src, fc)) →
  ∃ fc0, fc = enrichFeatureCollection fc0 d2r
         ∧ Forall (λ f, numeric_geometry f = true) fc0.
Proof.
  rewrite tryLoadOfficialDataset_eq. intros E.
  assert (∃ fc0, fc = enrichFeatureCollection fc0 d2r
            ∧ ∃ text, rowsToGeoJSON (parseCSV text) = Ok fc0
                      ∨ coerceToPoints (anyToFeatureCollection (tryParseJSON JSON_parse text))
                        = Ok fc0) as (fc0 & -> & text & H).
  { destruct (tryReadLocalOfficialDataset w) as [[p ext]|].
    - cbn [snd] in E. destruct (file w p) as [raw|]; [|discriminate].
      apply official_from_file_enriched in E as (fc0 & -> & H). eauto.
    - destruct (truthy (official_url w)); [|discriminate]. cbn [snd] in E.
      destruct (fetchText w _ _) as [text|]; [|discriminate].
      apply official_from_text_enriched in E as (fc0 & -> & H). eauto. }
  exists fc0. split; [reflexivity|].
  destruct H as [H|H]; [eapply rowsToGeoJSON_numeric|eapply coerceToPoints_numeric]; exact H.
Qed.

Lemma fetchOverpass_numeric (w : @world num) fc0 :
  (fetchOverpass JSON_parse w).2 = Ok fc0 → Forall (λ f, numeric_geometry f = true) fc0.
Proof.
  rewrite fetchOverpass_eq. cbn [snd].
  destruct (fetchText w _ _) as [text|]; [|discriminate].
  change (Ok ?a ≫= ?k) with (k a). unfold overpass_collection.
  destruct (_ || _); [discriminate|]. intros Eo.
  eapply rfilter_map_Forall, Eo. intros x y. apply overpass_feature_numeric.
Qed.

(** Every collection [main] writes went through [enrichFeatureCollection]
    after one of the three validating readers. *)
Lemma main_features (w : @world num) d2r out :
  (main JSON_parse w d2r).2 = Ok out →
  ∃ fc0, features out = enrichFeatureCollection fc0 d2r
         ∧ Forall (λ f, numeric_geometry f = true) fc0.
Proof.
  destruct ((tryLoadOfficialDataset JSON_parse w d2r).2) as [[[src fc]|]|e] eqn:E.
  - rewrite (main_official w d2r src fc E). cbn [snd]. intros [= <-]. cbn [features].
    eapply official_numeric, E.
  - rewrite main_fallback by (left; exact E). cbn [snd].
    destruct ((fetchOverpass JSON_parse w).2) as [fc0|] eqn:Eo; [|discriminate].
    intros [= <-]. exists fc0. split; [reflexivity|]. eapply fetchOverpass_numeric, Eo.
  - rewrite main_fallback by (right; eauto). cbn [snd].
    destruct ((fetchOverpass JSON_parse w).2) as [fc0|] eqn:Eo; [|discriminate].
    intros [= <-]. exists fc0. split; [reflexivity|]. eapply fetchOverpass_numeric, Eo.
Qed.

Lemma enrichFeatureCollection_geometry fc0 d2r :
  Forall (λ f : @json num, numeric_geometry f = true) fc0 →
  Forall (λ f, numeric_geometry f = true) (enrichFeatureCollection fc0 d2r).
Proof.
  intros H. unfold enrichFeatureCollection. apply Forall_fmap.
  eapply Forall_impl; [exact H|]. intros f Hf. exact Hf.
Qed.

(** The schools pipeline keeps the invariant: every feature [main]
    writes has a geometry with numeric coordinates only. *)
Lemma main_numeric (w : @world num) d2r out :
  (main JSON_parse w d2r).2 = Ok out →
  Forall (λ f, numeric_geometry f = true) (features out).
Proof.
  intros H. apply main_features in H as (fc0 & -> & H).
  now apply enrichFeatureCollection_geometry.
Qed.


(** C2 (amended).  The sourcing states run in the order local file,
    remote URL, Overpass, with the remote URL tried only when no local
    file exists.  A collection the official stage resolves to, empty or
    not, ends the search and its label becomes [meta.source]:
    official-local from a local file, official-remote or
    official-remote-csv from the URL.  When the official stage resolves
    to nothing (no file and no URL, or a remote CSV without rows) or
    throws (unreadable or unparsable data, network error), the run
    goes on to Overpass and is labelled overpass; it is fatal exactly
    when it reaches Overpass and Overpass fails. *)
Theorem sourcing_order (w : @world num) (d2r : gmap string string) :
  let official := tryLoadOfficialDataset JSON_parse w d2r in
  let overpass := fetchOverpass JSON_parse w in
  let run := main JSON_parse w d2r in
  official.1 = match tryReadLocalOfficialDataset w with
               | Some (localPath, _) => [ReadFile localPath]
               | None =>
                   if truthy (official_url w)
                   then [Fetch (ToString (official_url w))] else []
               end
  ∧ overpass.1 = [Fetch (ToString (overpass_endpoint w))]
  ∧ (∀ source collection, official.2 = Ok (Some (source, collection)) →
       run = (official.1, Ok {| features := collection; meta_source := source |})
       ∧ match tryReadLocalOfficialDataset w with
         | Some _ => source = "official-local"
         | None => source = "official-remote" ∨ source = "official-remote-csv"
         end)
  ∧ (official.2 = Ok None ∨ (∃ e, official.2 = Throw e) →
       run = (official.1 ++ overpass.1, overpass_output d2r <$> overpass.2))
  ∧ ((∃ e, run.2 = Throw e)
     ↔ (official.2 = Ok None ∨ (∃ e, official.2 = Throw e)) ∧ (∃ e, overpass.2 = Throw e)).
Proof.
  cbv zeta. split; [|split; [|split; [|split]]].
  - rewrite tryLoadOfficialDataset_eq.
    destruct (tryReadLocalOfficialDataset w) as [[p ext]|]; [reflexivity|].
    destruct (truthy (official_url w)); reflexivity.
  - now rewrite fetchOverpass_eq.
  - intros source collection H. split; [now apply main_official|].
    now apply official_label with d2r collection.
  - apply main_fallback.
  - destruct ((tryLoadOfficialDataset JSON_parse w d2r).2) as [[[src fc]|]|e] eqn:E.
    + rewrite (main_official w d2r src fc E). cbn [snd]. split.
      * intros [e He]. discriminate.
      * intros [[H|[e H]] _]; discriminate.
    + rewrite main_fallback by (left; exact E). cbn [snd].
      destruct ((fetchOverpass JSON_parse w).2) as [fc0|e0]; simpl; split.
      * intros [e He]. discriminate.
      * intros [_ [e He]]. discriminate.
      * intros _. split; eauto.
      * intros _. eauto.
    + rewrite main_fallback by (right; eauto). cbn [snd].
      destruct ((fetchOverpass JSON_parse w).2) as [fc0|e0]; simpl; split.
      * intros [e' He]. discriminate.
      * intros [_ [e' He]]. discriminate.
      * intros _. split; eauto.
      * intros _. eauto.
Qed.

(** * Further properties of the scripts *)

(** ** Cells of a CSV line *)

Lemma append_cons x (a b : string) : String x a +:+ b = String x (a +:+ b).
Proof. reflexivity. Qed.

Lemma append_assoc (a b c : string) : (a +:+ b) +:+ c = a +:+ (b +:+ c).
Proof. induction a as [|x a IH]; [reflexivity|]. rewrite !append_cons. f_equal. exact IH. Qed.

Lemma append_nil_r (a : string) : a +:+ "" = a.
Proof. induction a as [|x a IH]; [reflexivity|]. rewrite append_cons. f_equal. exact IH. Qed.

Lemma splitLine_from_cons d cur q line :
  ∃ c cs, splitLine_from d cur q line = c :: cs.
Proof.
  assert (G : ∀ n line, String.length line ≤ n →
              ∀ cur q, ∃ c cs, splitLine_from d cur q line = c :: cs).
  { clear. induction n as [|n IH]; intros line Hn cur q.
    - destruct line; [cbn; eauto|simpl in Hn; lia].
    - destruct line as [|ch rest]; [cbn; eauto|]. simpl in Hn. cbn [splitLine_from].
      destruct (Ascii.eqb ch DQUOTE).
      + destruct rest as [|ch' rest']; [cbn; eauto|].
        destruct (q && Ascii.eqb ch' DQUOTE); apply IH; simpl in *; lia.
      + destruct (String.eqb (str1 ch) d && negb q); [eauto|]. apply IH. lia. }
  apply (G (String.length line)). lia.
Qed.

Lemma join_cons sep p c cs : Str.join sep (p :: c :: cs) = p +:+ sep +:+ Str.join sep (c :: cs).
Proof. reflexivity. Qed.

Lemma splitLine_from_join d cur line :
  all_chars not_quote line = true →
  Str.join (str1 d) (splitLine_from (str1 d) cur false line) = cur +:+ line.
Proof.
  revert cur. induction line as [|ch rest IH]; intros cur Hq.
  - cbn. now rewrite append_nil_r.
  - cbn [all_chars] in Hq. apply andb_true_iff in Hq as [Hch Hq]. unfold not_quote in Hch.
    apply negb_true_iff in Hch. cbn [splitLine_from]. rewrite Hch.
    destruct (String.eqb (str1 ch) (str1 d)) eqn:E; cbn [andb negb].
    + apply String.eqb_eq in E. injection E as ->.
      destruct (splitLine_from_cons (str1 d) "" false rest) as (c & cs & Hs).
      pose proof (IH "" Hq) as H. rewrite Hs in *. rewrite join_cons, H. reflexivity.
    + rewrite IH by exact Hq. rewrite append_assoc. reflexivity.
Qed.

Lemma splitLine_from_quoted d cur s tail :
  match tail with String c _ => Ascii.eqb c DQUOTE = false | EmptyString => True end →
  splitLine_from d cur true (csv_escape s +:+ String DQUOTE tail)
  = splitLine_from d (cur +:+ s) false tail.
Proof.
  intros Ht. revert cur. induction s as [|c s IH]; intros cur.
  - cbn [csv_escape]. change ("" +:+ String DQUOTE tail) with (String DQUOTE tail).
    rewrite append_nil_r. cbn [splitLine_from]. rewrite Ascii.eqb_refl.
    destruct tail as [|c' tail']; [reflexivity|]. rewrite Ht. reflexivity.
  - cbn [csv_escape]. destruct (Ascii.eqb c DQUOTE) eqn:E.
    + apply Ascii.eqb_eq in E. subst c. rewrite !append_cons.
      cbn [splitLine_from]. rewrite Ascii.eqb_refl. cbn [andb].
      rewrite IH. now rewrite append_assoc.
    + rewrite append_cons. cbn [splitLine_from]. rewrite E. rewrite andb_false_r.
      rewrite IH. now rewrite append_assoc.
Qed.

(** X1.  A line without quote characters is split at every delimiter
    and nowhere else: joining the cells with the delimiter gives the
    line back. *)
Theorem splitLine_join_roundtrip (d : ascii) (line : string) :
  all_chars not_quote line = true →
  Str.join (str1 d) (splitLine (str1 d) line) = line.
Proof. intros H. unfold splitLine. now rewrite splitLine_from_join. Qed.

Lemma splitLine_open_quote d tail :
  splitLine d (String DQUOTE tail) = splitLine_from d "" true tail.
Proof.
  unfold splitLine. cbn [splitLine_from]. rewrite Ascii.eqb_refl.
  destruct tail; reflexivity.
Qed.

(** X2.  Quoting is undone by [splitLine]: a field written between
    quotes with every quote of its text doubled is read back as that
    text, delimiters and quotes included, whether it is the whole line
    or is followed by a delimiter and further fields. *)
Theorem splitLine_quoted_field (d : ascii) (s rest : string) :
  d ≠ DQUOTE →
  splitLine (str1 d) (quoted (csv_escape s)) = [s]
  ∧ splitLine (str1 d) (quoted (csv_escape s) +:+ str1 d +:+ rest)
    = s :: splitLine (str1 d) rest.
Proof.
  intros Hd. unfold quoted. split.
  - change (str1 DQUOTE +:+ csv_escape s +:+ str1 DQUOTE)
      with (String DQUOTE (csv_escape s +:+ String DQUOTE "")).
    rewrite splitLine_open_quote, splitLine_from_quoted by exact I. reflexivity.
  - change ((str1 DQUOTE +:+ csv_escape s +:+ str1 DQUOTE) +:+ str1 d +:+ rest)
      with (String DQUOTE ((csv_escape s +:+ str1 DQUOTE) +:+ String d rest)).
    rewrite splitLine_open_quote, append_assoc.
    change (str1 DQUOTE +:+ String d rest) with (String DQUOTE (String d rest)).
    assert (E : Ascii.eqb d DQUOTE = false) by now apply Ascii.eqb_neq.
    rewrite splitLine_from_quoted by exact E.
    cbn [splitLine_from]. rewrite E, String.eqb_refl. reflexivity.
Qed.

(** ** Global replacement and normalised names *)

Lemma all_chars_app p a b :
  all_chars p (a +:+ b) = all_chars p a && all_chars p b.
Proof.
  induction a as [|x a IH]; [reflexivity|].
  rewrite append_cons. cbn [all_chars]. rewrite IH. now rewrite andb_assoc.
Qed.

Lemma all_chars_impl (p q : ascii → bool) s :
  (∀ c, p c = true → q c = true) → all_chars p s = true → all_chars q s = true.
Proof.
  intros Hpq. induction s as [|x s IH]; [reflexivity|]. cbn [all_chars].
  intros H. apply andb_true_iff in H as [Hx Hs]. now rewrite (Hpq x Hx), IH.
Qed.

Lemma all_chars_and (p q : ascii → bool) s :
  all_chars p s = true → all_chars q s = true →
  all_chars (λ c, p c && q c) s = true.
Proof.
  induction s as [|x s IH]; [reflexivity|]. cbn [all_chars]. intros H1 H2.
  apply andb_true_iff in H1 as [-> H1]. apply andb_true_iff in H2 as [-> H2].
  now rewrite IH.
Qed.

(** A global replacement only copies code units of the subject. *)
Lemma replace_all_drawn r by_ (good : ascii → bool) s :
  all_chars good by_ = true → all_chars good s = true →
  all_chars good (Re.replace_all r by_ s) = true.
Proof.
  intros Hby. unfold Re.replace_all. generalize 0 (@None ascii).
  induction s as [|c s IH]; intros skip prev Hs.
  - destruct skip; cbn; [|reflexivity].
    destruct (Re.step r (prev, "")) as [|[p1 rest1] tl]; [reflexivity|].
    destruct (0 - String.length rest1); now rewrite all_chars_app, Hby.
  - cbn [all_chars] in Hs. apply andb_true_iff in Hs as [Hc Hs].
    destruct skip; cbn; [|now apply IH].
    destruct (Re.step r (prev, String c s)) as [|[p1 rest1] tl].
    + cbn [all_chars]. now rewrite Hc, IH.
    + destruct (_ - _); rewrite all_chars_app, Hby; cbn [all_chars andb id];
        rewrite ?Hc, IH; auto.
Qed.

(** A global replacement of a pattern that only has non-empty matches
    copies a code unit only where no match starts. *)
Lemma replace_all_unmatched r by_ (good : ascii → bool) s :
  (∀ prev c rest, Re.step r (prev, String c rest) = [] → good c = true) →
  (∀ prev rest p1 rest1 tl,
      Re.step r (prev, rest) = (p1, rest1) :: tl →
      String.length rest1 < String.length rest) →
  all_chars good by_ = true →
  all_chars good (Re.replace_all r by_ s) = true.
Proof.
  intros Hno Hlen Hby. unfold Re.replace_all. generalize 0 (@None ascii).
  induction s as [|c s IH]; intros skip prev.
  - destruct skip; cbn; [|reflexivity].
    destruct (Re.step r (prev, "")) as [|[p1 rest1] tl] eqn:E; [reflexivity|].
    apply Hlen in E. simpl in E. lia.
  - destruct skip; cbn; [|now apply IH].
    destruct (Re.step r (prev, String c s)) as [|[p1 rest1] tl] eqn:E.
    + cbn [all_chars]. now rewrite (Hno _ _ _ E), IH.
    + apply Hlen in E. cbn [String.length] in E.
      destruct (_ - _) eqn:Ed; [lia|].
      rewrite all_chars_app, Hby. cbn [id andb]. apply IH.
Qed.

Lemma run_shorter p rest st :
  st ∈ Re.run p rest → String.length st.2 < String.length rest.
Proof.
  revert st. induction rest as [|c rest IH]; intros st; cbn [Re.run].
  - intros H. inversion H.
  - destruct (p c); [|intros H; inversion H].
    intros H. apply elem_of_app in H as [H|H].
    + apply IH in H. cbn [String.length]. lia.
    + apply list_elem_of_singleton in H. subst st. cbn. lia.
Qed.

Lemma trimStart_all p s : all_chars p s = true → all_chars p (Str.trimStart s) = true.
Proof.
  induction s as [|c s IH]; [reflexivity|]. cbn [Str.trimStart]. intros H.
  destruct (Chr.is_space c); [|exact H].
  cbn [all_chars] in H. apply andb_true_iff in H as [_ H]. now apply IH.
Qed.

Lemma trimEnd_all p s : all_chars p s = true → all_chars p (Str.trimEnd s) = true.
Proof.
  induction s as [|c s IH]; [reflexivity|]. cbn [Str.trimEnd all_chars]. intros H.
  apply andb_true_iff in H as [Hc H]. specialize (IH H).
  destruct (Str.trimEnd s).
  - destruct (Chr.is_space c); [reflexivity|]. cbn [all_chars]. now rewrite Hc.
  - cbn [all_chars] in *. now rewrite Hc, IH.
Qed.

Lemma trimEnd_idem s : Str.trimEnd (Str.trimEnd s) = Str.trimEnd s.
Proof.
  induction s as [|c s IH]; [reflexivity|]. cbn [Str.trimEnd].
  destruct (Str.trimEnd s) as [|x t] eqn:E.
  - destruct (Chr.is_space c) eqn:Ec; [reflexivity|]. cbn [Str.trimEnd]. now rewrite Ec.
  - change (Str.trimEnd (String c (String x t)))
      with (match Str.trimEnd (String x t) with
            | EmptyString => if Chr.is_space c then EmptyString else String c EmptyString
            | t' => String c t'
            end).
    now rewrite IH.
Qed.

Lemma trimEnd_head c s :
  Chr.is_space c = false → ∃ t, Str.trimEnd (String c s) = String c t.
Proof.
  intros Hc. cbn [Str.trimEnd]. destruct (Str.trimEnd s); [rewrite Hc|]; eauto.
Qed.

Lemma trimStart_head s :
  match Str.trimStart s with
  | EmptyString => True
  | String c _ => Chr.is_space c = false
  end.
Proof.
  induction s as [|c s IH]; [exact I|]. cbn [Str.trimStart].
  destruct (Chr.is_space c) eqn:E; [exact IH|exact E].
Qed.

Lemma trim_idem s : Str.trim (Str.trim s) = Str.trim s.
Proof.
  unfold Str.trim. pose proof (trimStart_head s) as H.
  destruct (Str.trimStart s) as [|c t]; [reflexivity|].
  destruct (trimEnd_head c t H) as [t' E]. rewrite E.
  cbn [Str.trimStart]. rewrite H, <- E. apply trimEnd_idem.
Qed.

Lemma trim_all p s : all_chars p s = true → all_chars p (Str.trim s) = true.
Proof. intros H. unfold Str.trim. now apply trimEnd_all, trimStart_all. Qed.

Lemma normalizeDistrictName_normal (name : @json num) :
  normal_name (normalizeDistrictName name).
Proof.
  unfold normal_name.
  unfold normalizeDistrictName. destruct (negb (truthy name)); [split; reflexivity|].
  cbv zeta. split; [|apply trim_idem]. apply trim_all.
  set (s2 := Re.replace_all re_district "" _).
  set (s3 := Re.replace_all (Re.PlusSet Chr.is_space) " " s2).
  assert (H3 : all_chars (λ c, negb (Chr.is_space c) || Ascii.eqb c " ") s3 = true).
  { apply replace_all_unmatched; [| |reflexivity].
    - intros prev c rest. cbn [Re.step snd Re.run].
      destruct (Chr.is_space c); [|reflexivity].
      destruct (Re.run Chr.is_space rest); discriminate.
    - intros prev rest p1 rest1 tl E. cbn [Re.step snd] in E.
      apply (run_shorter Chr.is_space rest (p1, rest1)). rewrite E. left. }
  eapply all_chars_impl;
    [|apply all_chars_and;
       [apply (replace_all_drawn _ "" _ s3 eq_refl H3)
       |apply (replace_all_unmatched _ ""
                 (λ c, Chr.is_lower_az c || Chr.is_space c))]].
  - intros c H. apply andb_true_iff in H as [H1 H2]. unfold district_char.
    destruct (Chr.is_lower_az c); [reflexivity|].
    destruct (Chr.is_space c); simpl in *; congruence.
  - intros prev c rest. cbn [Re.step snd].
    destruct (Chr.is_lower_az c || Chr.is_space c); [reflexivity|discriminate].
  - intros prev rest p1 rest1 tl. cbn [Re.step snd]. destruct rest as [|c rest']; [discriminate|].
    destruct (negb _); [|discriminate]. intros [= _ <- _]. cbn. lia.
  - reflexivity.
Qed.

(** X3.  A normalised district name consists of the letters a to z and
    spaces only, and neither starts nor ends with a space: normalising
    removes every other code unit, turns each run of white space into
    one space and trims. *)
Theorem normalizeDistrictName_alphabet (name : @json num) :
  all_chars district_char (normalizeDistrictName name) = true
  ∧ Str.trim (normalizeDistrictName name) = normalizeDistrictName name.
Proof. apply normalizeDistrictName_normal. Qed.

(** ** The district table *)

Lemma fill_app m (a b : list (@json num * string)) : fill m (a ++ b) = fill (fill m a) b.
Proof. apply fold_left_app. Qed.

Lemma fill_lookup (pairs : list (@json num * string)) m k :
  fill m pairs !! k
  = match last_region k pairs with Some r => Some r | None => m !! k end.
Proof.
  induction pairs as [|x pairs IH] using rev_ind; [reflexivity|].
  rewrite fill_app. unfold last_region. rewrite filter_app.
  change (fill (fill m pairs) [x]) with (<[normalizeDistrictName x.1 := x.2]> (fill m pairs)).
  destruct (decide (normalizeDistrictName x.1 = k)) as [E|E].
  - rewrite filter_cons_True by exact E. rewrite filter_nil, last_snoc. cbn.
    rewrite E. apply lookup_insert_eq.
  - rewrite filter_cons_False by exact E. rewrite filter_nil, app_nil_r.
    rewrite lookup_insert_ne by exact E. exact IH.
Qed.

Lemma add_districts_fill m region (ds : list (@json num)) :
  add_districts m region ds = fill m ((λ d, (d, region)) <$> ds).
Proof.
  revert m. induction ds as [|d ds IH]; intros m; [reflexivity|].
  cbn. apply IH.
Qed.

Lemma add_region_entry_fill m (entry : @json num) :
  add_region_entry m entry
  = if is_nullish entry then Throw TypeError else Ok (fill m (entry_pairs entry)).
Proof.
  unfold add_region_entry.
  destruct (is_nullish entry) eqn:En.
  { destruct entry; try discriminate; reflexivity. }
  rewrite (get_not_nullish _ _ En). change (Ok ?a ≫= ?k) with (k a). cbv beta zeta.
  unfold entry_pairs. fold (entry_region entry). fold (entry_districts entry).
  destruct (truthy (entry_region entry)); [|reflexivity].
  destruct (isArray (entry_districts entry)); [|reflexivity].
  cbn [negb orb andb]. now rewrite add_districts_fill.
Qed.

Lemma add_region_entries_fill (entries : list (@json num)) m :
  add_region_entries m entries
  = if existsb is_nullish entries then Throw TypeError
    else Ok (fill m (entries ≫= entry_pairs)).
Proof.
  revert m. induction entries as [|e es IH]; intros m; [reflexivity|].
  cbn [add_region_entries existsb]. rewrite add_region_entry_fill.
  destruct (is_nullish e); [reflexivity|].
  change (Ok ?a ≫= ?k) with (k a). cbv beta. rewrite IH. cbn [orb].
  destruct (existsb is_nullish es); [reflexivity|].
  now rewrite bind_cons, fill_app.
Qed.

Lemma flat_shape_fill (props : list (string * @json num)) m :
  fold_left (λ m rv, match rv.2 with
                     | JArr districts => add_districts m rv.1 districts
                     | _ => m
                     end) props m
  = fill m (props ≫= (λ rv, match rv.2 with
                            | JArr districts => (λ d, (d, rv.1)) <$> districts
                            | _ => []
                            end)).
Proof.
  revert m. induction props as [|[r v] props IH]; intros m; [reflexivity|].
  cbn [fold_left]. rewrite IH, bind_cons, fill_app. f_equal.
  cbn [snd fst]. destruct v; try reflexivity. apply add_districts_fill.
Qed.

Lemma table_shape_fill (props : list (string * @json num)) m :
  fold_left (λ m dr, <[normalizeDistrictName (JStr dr.1) := ToString dr.2]> m) props m
  = fill m ((λ dr, (JStr dr.1, ToString dr.2)) <$> props).
Proof.
  revert m. induction props as [|dr props IH]; intros m; [reflexivity|].
  cbn. apply IH.
Qed.

Lemma buildDistrictToRegionMap_eq (doc : @json num) :
  buildDistrictToRegionMap doc
  = match region_entries doc with
    | Some entries =>
        if existsb is_nullish entries then Throw TypeError
        else Ok (fill ∅ (listed_districts doc))
    | None => Ok (fill ∅ (listed_districts doc))
    end.
Proof.
  unfold buildDistrictToRegionMap, listed_districts, region_entries.
  destruct (truthy doc); [|reflexivity].
  destruct (is_object doc); [|reflexivity].
  cbn [negb orb andb]. cbv zeta.
  destruct (truthy (prop doc "districtToRegion") && is_object (prop doc "districtToRegion")).
  { now rewrite table_shape_fill. }
  destruct (isArray (prop doc "mappings")); [apply add_region_entries_fill|].
  destruct (isArray (prop doc "regions")); [apply add_region_entries_fill|].
  now rewrite flat_shape_fill.
Qed.

Lemma buildDistrictToRegionMap_fill (doc : @json num) m :
  buildDistrictToRegionMap doc = Ok m → m = fill ∅ (listed_districts doc).
Proof.
  rewrite buildDistrictToRegionMap_eq.
  destruct (region_entries doc) as [es|]; [destruct (existsb is_nullish es)|]; congruence.
Qed.

Lemma last_region_normal k (pairs : list (@json num * string)) r :
  last_region k pairs = Some r → normal_name k.
Proof.
  unfold last_region. destruct (last _) as [p|] eqn:E; [|discriminate]. intros _.
  apply last_Some in E as [l' E].
  assert (H : p ∈ filter (λ p, normalizeDistrictName p.1 = k) pairs).
  { rewrite E. apply elem_of_app. right. now left. }
  apply list_elem_of_filter in H as [<- _]. apply normalizeDistrictName_normal.
Qed.


(** X5.  Every key of the table is a normalised district name: letters
    a to z and spaces, neither starting nor ending with a space. *)
Theorem region_table_keys (doc : @json num) m k :
  buildDistrictToRegionMap doc = Ok m → is_Some (m !! k) →
  all_chars district_char k = true ∧ Str.trim k = k.
Proof.
  intros H [r Hr]. apply buildDistrictToRegionMap_fill in H as ->.
  rewrite fill_lookup, lookup_empty in Hr.
  destruct (last_region k _) as [r'|] eqn:E; [|discriminate].
  eapply last_region_normal, E.
Qed.

Lemma region_table_throws_iff (doc : @json num) e :
  buildDistrictToRegionMap doc = Throw e
  ↔ e = TypeError
    ∧ ∃ entries, region_entries doc = Some entries
                 ∧ Exists (λ entry, is_nullish entry = true) entries.
Proof.
  rewrite buildDistrictToRegionMap_eq.
  destruct (region_entries doc) as [es|].
  - destruct (existsb is_nullish es) eqn:E; split.
    + intros [= <-]. split; [reflexivity|]. exists es. split; [reflexivity|].
      apply Exists_exists. apply existsb_exists in E as (x & Hx & Hn).
      exists x. split; [now apply list_elem_of_In|exact Hn].
    + now intros [-> _].
    + discriminate.
    + intros (_ & es' & [= <-] & H). apply Exists_exists in H as (x & Hx & Hn).
      assert (existsb is_nullish es = true); [|congruence].
      apply existsb_exists. exists x. split; [now apply list_elem_of_In|exact Hn].
  - split; [discriminate|]. now intros (_ & es & ? & _).
Qed.

(** X6.  [buildDistrictToRegionMap] throws, a TypeError, exactly when
    it reads a list of entries (under mappings or regions) and one of
    the entries is null or undefined; on every other document it
    returns a table. *)
Theorem region_table_throws (doc : @json num) e :
  buildDistrictToRegionMap doc = Throw e
  ↔ e = TypeError
    ∧ ∃ entries, region_entries doc = Some entries
                 ∧ Exists (λ entry, is_nullish entry = true) entries.
Proof. apply region_table_throws_iff. Qed.


(** X8.  The regions file is read first.  When it exists and is not
    JSON, or lists a null entry, the run of the schools script ends
    there with an exception: no data set is read and nothing is
    fetched. *)
Theorem regions_file_fatal (w : @world num) raw :
  file w "regions.json" = Some raw →
  match JSON_parse raw with
  | None =>
      main_with_regions JSON_parse w
      = ([ReadFile "regions.json"], Throw (Error "SyntaxError"))
  | Some doc =>
      (∃ rest, (main_with_regions JSON_parse w).1 = ReadFile "regions.json" :: rest)
      ∧ ∀ entries, region_entries doc = Some entries →
          Exists (λ entry, is_nullish entry = true) entries →
          main_with_regions JSON_parse w = ([ReadFile "regions.json"], Throw TypeError)
  end.
Proof.
  intros Hf. unfold main_with_regions, readJSON, readFileSync. rewrite Hf.
  unfold mbind, io_bind, emit, lift. cbn [fst snd app].
  destruct (JSON_parse raw) as [doc|]; [|reflexivity].
  cbn [fst snd app]. split.
  - destruct (buildDistrictToRegionMap doc) as [t|e]; cbn [fst snd app]; eauto.
  - intros es He Hn.
    assert (T : buildDistrictToRegionMap doc = Throw TypeError).
    { apply region_table_throws_iff. eauto. }
    now rewrite T.
Qed.

(** ** Fiber features *)

Lemma featureType_kinds (el tags : @json num) :
  featureType el tags ∈ feature_kinds
  ∧ (featureType el tags = JStr "fiber_line" →
     is_str "way" (prop el "type") || is_str "relation" (prop el "type") = true)
  ∧ (featureType el tags = JStr "telecom_site" ∨ featureType el tags = JStr "telecom_cabinet"
     ∨ featureType el tags = JStr "telecom_pole" →
     is_str "node" (prop el "type") = true).
Proof.
  unfold featureType, feature_kinds. cbv zeta.
  destruct (is_str "way" (prop el "type") || is_str "relation" (prop el "type"));
    destruct (is_str "node" (prop el "type"));
    cbn [andb];
    repeat match goal with
           | |- context [if ?b then _ else _] => destruct b
           end;
    (split; [set_solver|]); split; intros H; try reflexivity;
    repeat match goal with H : _ ∨ _ |- _ => destruct H end; discriminate.
Qed.

(** X10.  The classification of a fiber feature is null or one of
    fiber_line, telecom_site, telecom_cabinet, telecom_pole; fiber_line
    is given to ways and relations only, the three telecom classes to
    nodes only. *)
Theorem featureType_by_kind (el tags : @json num) :
  featureType el tags ∈ feature_kinds
  ∧ (featureType el tags = JStr "fiber_line" →
     is_str "way" (prop el "type") || is_str "relation" (prop el "type") = true)
  ∧ (featureType el tags = JStr "telecom_site" ∨ featureType el tags = JStr "telecom_cabinet"
     ∨ featureType el tags = JStr "telecom_pole" →
     is_str "node" (prop el "type") = true).
Proof. apply featureType_kinds. Qed.

Lemma vertices_cases (g : list (@json num)) :
  vertices g = Throw TypeError ∨ ∃ ps, vertices g = Ok (JArr ps).
Proof.
  unfold vertices. induction g as [|p g IH]; [right; eexists; reflexivity|].
  cbn [rmap]. destruct p; cbn; auto;
    destruct (rmap _ g) as [ys|e]; cbn in *;
      solve [right; eexists; reflexivity
            |destruct IH as [IH|[ps IH]]; [left; exact IH|discriminate]].
Qed.

Lemma member_line_cases (m : @json num) :
  member_line m = Throw TypeError ∨ member_line m = Ok None
  ∨ ∃ ps, member_line m = Ok (Some (JArr ps)).
Proof.
  unfold member_line. destruct (get m "type") as [t|e] eqn:E.
  - change (Ok ?a ≫= ?k) with (k a). cbv beta.
    destruct (prop m "geometry") as [| | | | |g|]; auto.
    destruct (is_str "way" t); auto.
    destruct (vertices_cases g) as [->|[ps ->]]; [left; reflexivity|].
    right. right. exists ps. reflexivity.
  - left. destruct m; try discriminate; cbn in E; injection E as <-; reflexivity.
Qed.

Lemma rfilter_map_throw {A B} (f : A → result (option B)) xs e0 :
  (∀ x e, f x = Throw e → e = e0) →
  ∀ e, rfilter_map f xs = Throw e → e = e0.
Proof.
  intros Hf. induction xs as [|x xs IH]; intros e; cbn [rfilter_map]; [discriminate|].
  destruct (f x) as [y|e'] eqn:Ex.
  - change (Ok ?a ≫= ?k) with (k a). cbv beta.
    destruct (rfilter_map f xs) as [ys|e''].
    + discriminate.
    + intros [= <-]. now apply IH.
  - intros [= <-]. eapply Hf, Ex.
Qed.

Lemma rfilter_map_length {A B} (f : A → result (option B)) xs ys :
  rfilter_map f xs = Ok ys → length ys ≤ length xs.
Proof.
  revert ys. induction xs as [|x xs IH]; intros ys; cbn [rfilter_map].
  - intros [= <-]. reflexivity.
  - destruct (f x) as [y|e]; [|discriminate].
    change (Ok ?a ≫= ?k) with (k a). cbv beta.
    destruct (rfilter_map f xs) as [ys'|e]; [|discriminate].
    intros [= <-]. specialize (IH ys' eq_refl). destruct y; cbn [length]; lia.
Qed.

Lemma rfilter_map_Exists_throw {A B} (f : A → result (option B)) xs :
  Exists (λ x, ∃ e, f x = Throw e) xs → ∃ e, rfilter_map f xs = Throw e.
Proof.
  induction 1 as [x xs [e He]|x xs _ [e IH]]; cbn [rfilter_map].
  - rewrite He. eauto.
  - destruct (f x) as [y|e']; [|eauto].
    change (Ok ?a ≫= ?k) with (k a). cbv beta. rewrite IH. eauto.
Qed.

Lemma element_geometry_cases (el : @json num) :
  element_geometry el = Throw TypeError
  ∨ element_geometry el = Ok JNull
  ∨ ∃ g, element_geometry el = Ok g ∧ truthy g = true
         ∧ fiber_geometry_type (prop g "type") = true.
Proof.
  unfold element_geometry. cbv zeta.
  destruct (is_str "node" _ && _ && _).
  { right. right. eexists. repeat split. }
  destruct (is_str "way" _ && _).
  { destruct (vertices_cases (array_items (prop el "geometry"))) as [->|[ps ->]]; [now left|].
    right. right. eexists. repeat split. }
  destruct (is_str "relation" _ && _); [|now (right; left)].
  destruct (rfilter_map member_line _) as [lines|e] eqn:E.
  - change (Ok ?a ≫= ?k) with (k a). cbv beta.
    destruct lines as [|l1 [|l2 lines]]; [now (right; left)| |];
      right; right; eexists; repeat split.
  - left. apply rfilter_map_throw with (e0 := TypeError) in E as ->; [reflexivity|].
    intros m e' H. destruct (member_line_cases m) as [H'|[H'|[ps H']]]; congruence.
Qed.

Lemma elementToGeoJSONFeature_cases (el : @json num) :
  elementToGeoJSONFeature el = Throw TypeError
  ∨ elementToGeoJSONFeature el = Ok JNull
  ∨ ∃ f, elementToGeoJSONFeature el = Ok f ∧ truthy f = true ∧ fiber_feature f.
Proof.
  unfold elementToGeoJSONFeature.
  destruct (get el "tags") as [tags|e] eqn:Et.
  - change (Ok ?a ≫= ?k) with (k a). cbv beta zeta.
    destruct (element_geometry_cases el) as [->|[->|(g & -> & Hg & Ht)]];
      [now left|now (right; left)|].
    change (Ok ?a ≫= ?k) with (k a). cbv beta. rewrite Hg. cbn [negb].
    right. right. eexists. split; [reflexivity|]. split; [reflexivity|].
    split; [reflexivity|]. split; [exact Ht|].
    split; [|reflexivity].
    apply featureType_kinds.
  - left. destruct el; try discriminate; cbn in Et; injection Et as <-; reflexivity.
Qed.

Lemma buildFeatureCollection_fiber (elements out : list (@json num)) :
  buildFeatureCollection elements = Ok out → Forall fiber_feature out.
Proof.
  intros H. eapply rfilter_map_Forall; [|exact H]. intros el f Hf. cbv beta in Hf.
  destruct (elementToGeoJSONFeature_cases el) as [E|[E|(f' & E & Ht & Hff)]];
    rewrite E in Hf; try discriminate.
  change (Ok ?a ≫= ?k) with (k a) in Hf. cbv beta in Hf. rewrite Ht in Hf.
  now injection Hf as <-.
Qed.

(** X9.  Every feature [buildFeatureCollection] returns is a GeoJSON
    Feature with a Point, LineString or MultiLineString geometry, one
    of the five classifications and OpenStreetMap as its source; there
    are at most as many features as elements. *)
Theorem buildFeatureCollection_features (elements out : list (@json num)) :
  buildFeatureCollection elements = Ok out →
  Forall fiber_feature out ∧ length out ≤ length elements.
Proof.
  intros H. split.
  - eapply buildFeatureCollection_fiber, H.
  - eapply rfilter_map_length, H.
Qed.

Lemma buildFeatureCollection_throw (elements : list (@json num)) e :
  buildFeatureCollection elements = Throw e → e = TypeError.
Proof.
  apply rfilter_map_throw. intros el e' H. cbv beta in H.
  destruct (elementToGeoJSONFeature_cases el) as [E|[E|(f' & E & Ht & Hff)]];
    rewrite E in H.
  - now injection H as <-.
  - discriminate.
  - discriminate.
Qed.

(** X13.  A null or undefined element among the Overpass elements makes
    [buildFeatureCollection] throw a TypeError, whatever the other
    elements are: no feature collection is built. *)
Theorem buildFeatureCollection_null_element (elements : list (@json num)) :
  Exists (λ el, is_nullish el = true) elements →
  buildFeatureCollection elements = Throw TypeError.
Proof.
  intros H.
  destruct (rfilter_map_Exists_throw
              (λ el : @json num,
                 f ← elementToGeoJSONFeature el; Ok (if truthy f then Some f else None))
              elements) as [e He].
  - eapply Exists_impl; [exact H|]. intros el Hn. exists TypeError.
    destruct el; try discriminate; reflexivity.
  - unfold buildFeatureCollection. rewrite He. f_equal.
    eapply buildFeatureCollection_throw, He.
Qed.

(** X11.  A way with a geometry array whose vertices are not null
    becomes a LineString feature with one position [lon, lat] per
    vertex, in order, whatever the number of vertices (none and one
    included) and whatever the tags. *)
Theorem way_feature (el : @json num) g :
  is_str "way" (prop el "type") = true →
  prop el "geometry" = JArr g →
  Forall (λ p, is_nullish p = false) g →
  ∃ f, elementToGeoJSONFeature el = Ok f
       ∧ prop f "type" = JStr "Feature"
       ∧ prop f "id" = JStr ("way/" +:+ ToString (prop el "id"))
       ∧ prop f "geometry" = LineString (JArr (vertex_pair <$> g))
       ∧ length (array_items (prop (prop f "geometry") "coordinates")) = length g.
Proof.
  intros Hw Hg Hv. unfold elementToGeoJSONFeature.
  assert (Hel : is_nullish el = false).
  { destruct el; try reflexivity; discriminate. }
  rewrite (get_not_nullish _ _ Hel). change (Ok ?a ≫= ?k) with (k a). cbv beta zeta.
  rewrite (element_geometry_way el g Hw Hg Hv).
  change (Ok ?a ≫= ?k) with (k a). cbv beta.
  cbn [truthy LineString negb]. eexists. split; [reflexivity|].
  rewrite (is_str_true _ _ Hw). cbn. rewrite length_fmap. auto.
Qed.

(** X12.  A node is never an error: it becomes a Point feature at
    [lon, lat] when both are numbers and is skipped otherwise. *)
Theorem node_feature (el : @json num) :
  is_str "node" (prop el "type") = true →
  ∃ f, elementToGeoJSONFeature el = Ok f
       ∧ truthy f = is_number (prop el "lon") && is_number (prop el "lat")
       ∧ (truthy f = true →
          prop f "geometry" = Point (JArr [prop el "lon"; prop el "lat"])).
Proof.
  intros Hn. unfold elementToGeoJSONFeature.
  assert (Hel : is_nullish el = false).
  { destruct el; try reflexivity; discriminate. }
  rewrite (get_not_nullish _ _ Hel). change (Ok ?a ≫= ?k) with (k a). cbv beta zeta.
  unfold element_geometry. cbv zeta. rewrite Hn.
  rewrite (is_str_true _ _ Hn). cbn [is_str String.eqb Ascii.eqb Bool.eqb andb].
  destruct (is_number (prop el "lon") && is_number (prop el "lat")).
  - change (Ok ?a ≫= ?k) with (k a). cbv beta. cbn [truthy Point negb].
    eexists. split; [reflexivity|]. split; reflexivity.
  - change (Ok ?a ≫= ?k) with (k a). cbv beta. cbn [truthy negb].
    eexists. split; [reflexivity|]. split; [reflexivity|discriminate].
Qed.

(** ** The retry loop and the run of the fiber script *)

Lemma attempt_once_payload (net : @network num) i ep json :
  attempt_once net i ep = Ok json →
  (∃ res, net i ep = Ok res ∧ ok res = true ∧ body_json res = Ok json)
  ∧ truthy json && is_object json && truthy (prop json "remark") = false.
Proof.
  unfold attempt_once. destruct (net i ep) as [res|e]; [|discriminate].
  change (Ok ?a ≫= ?k) with (k a). cbv beta.
  destruct (ok res) eqn:Eok; cbn [negb].
  - destruct (body_json res) as [j|e] eqn:Ej; [|discriminate].
    change (Ok ?a ≫= ?k) with (k a). cbv beta zeta.
    change (match j with JArr _ | JObj _ => true | _ => false end) with (is_object j).
    destruct (truthy j && is_object j && truthy (prop j "remark")) eqn:Er; [discriminate|].
    intros [= <-]. split; [|exact Er]. exists res. auto.
  - destruct (text res); discriminate.
Qed.

Lemma retry_loop_trace (net : @network num) endpoints remaining :
  ∀ attempt lastError,
    ∃ k, k ≤ remaining
         ∧ (retry_loop net endpoints remaining attempt lastError).1
           = endpoint_of endpoints <$> seq attempt k
         ∧ match (retry_loop net endpoints remaining attempt lastError).2 with
           | Ok json => 1 ≤ k ∧ outcome net endpoints (attempt + k - 1) = Ok json
           | Throw _ => k = remaining
           end.
Proof.
  induction remaining as [|r IH]; intros attempt lastError.
  - exists 0. split; [lia|]. split; reflexivity.
  - cbn [retry_loop]. cbv zeta.
    destruct (attempt_once net attempt (endpoint_of endpoints attempt)) as [json|e] eqn:E.
    + exists 1. cbn [fst snd]. split; [lia|]. split; [reflexivity|]. split; [lia|].
      unfold outcome. now replace (attempt + 1 - 1) with attempt by lia.
    + destruct (IH (S attempt) (Some e)) as (k & Hk & Ht & Hr).
      exists (S k). cbn [fst snd]. split; [lia|]. split; [cbn; now rewrite Ht|].
      destruct (retry_loop net endpoints r (S attempt) (Some e)).2.
      * split; [lia|]. now replace (attempt + S k - 1) with (S attempt + k - 1) by lia.
      * lia.
Qed.

(** X15.  Whatever the network does, a payload [postJSONWithRetry]
    returns is the JSON body of a response with an ok status, received
    at some attempt k within the maximum, after requests to the
    endpoints of attempts 1 to k; it is never an object with a truthy
    remark. *)
Theorem postJSONWithRetry_payload (net : @network num) endpoints A json :
  (postJSONWithRetry net endpoints A).2 = Ok json →
  ∃ k res,
    1 ≤ k ≤ A
    ∧ (postJSONWithRetry net endpoints A).1 = rotation endpoints k
    ∧ net k (endpoint_of endpoints k) = Ok res
    ∧ ok res = true
    ∧ body_json res = Ok json
    ∧ truthy json && is_object json && truthy (prop json "remark") = false.
Proof.
  unfold postJSONWithRetry. intros H.
  destruct (retry_loop_trace net endpoints A 1 None) as (k & Hk & Ht & Hr).
  rewrite H in Hr. destruct Hr as [Hk1 Ho].
  replace (1 + k - 1) with k in Ho by lia.
  apply attempt_once_payload in Ho as [(res & Hn & Hok & Hb) Hrem].
  exists k, res. split; [lia|]. split; [exact Ht|]. auto.
Qed.

(** X14.  A run of the fiber script posts the query to the endpoints of
    attempts 1 to k for some k from 1 to 6, in rotation over the four
    configured endpoints.  It ends in one of three ways: all six
    attempts failed and nothing is written; the raw answer is cached
    but the answer is null or holds a null element, and the run fails
    with a TypeError without writing the output; or the raw answer and
    then the output are written, and every feature of the output is a
    feature as [buildFeatureCollection] makes them. *)
Theorem fiber_main_trace (net : @network num) :
  ∃ k, 1 ≤ k ≤ 6
       ∧ let posts := Post <$> rotation OVERPASS_ENDPOINTS k in
         match (fiber_main net).2 with
         | Ok _ =>
             ∃ json features,
               (fiber_main net).1 = posts ++ [WriteRaw json; WriteOutput features]
               ∧ Forall fiber_feature features
         | Throw e =>
             ((fiber_main net).1 = posts ∧ k = 6)
             ∨ (∃ json, (fiber_main net).1 = posts ++ [WriteRaw json] ∧ e = TypeError)
         end.
Proof.
  unfold fiber_main, postJSONWithRetry. cbv zeta.
  destruct (retry_loop_trace net OVERPASS_ENDPOINTS 6 1 None) as (k & Hk & Ht & Hr).
  destruct (retry_loop net OVERPASS_ENDPOINTS 6 1 None) as [tr [json|e]];
    cbn [fst snd] in *.
  - exists k. split; [lia|]. subst tr.
    destruct (get json "elements") as [elements|e] eqn:Eg.
    + change (Ok ?a ≫= ?k) with (k a). cbv beta.
      destruct (buildFeatureCollection _) as [features|e] eqn:Eb; cbn [fst snd].
      * exists json, features. split; [now rewrite <- app_assoc|].
        eapply buildFeatureCollection_fiber, Eb.
      * right. exists json. split; [reflexivity|].
        eapply buildFeatureCollection_throw, Eb.
    + cbn [fst snd]. right. exists json. split; [reflexivity|].
      destruct json; try discriminate; cbn in Eg; now injection Eg as <-.
  - subst k. exists 6. split; [lia|]. left. split; [|reflexivity]. now rewrite Ht.
Qed.

(** ** Point features of the schools script *)

Lemma toPointGeometry_point (g r : @json num) :
  toPointGeometry g = Ok r → truthy r = true → prop r "type" = JStr "Point".
Proof.
  unfold toPointGeometry. destruct (negb (truthy g)); [intros [= <-]; discriminate|].
  cbv zeta. destruct (is_str "Point" _) eqn:Ep.
  { intros [= <-] _. now apply is_str_true. }
  intros H Ht.
  repeat match type of H with
         | (if ?b then _ else _) = _ => destruct b
         end;
    repeat match type of H with
           | (?m ≫= _) = _ =>
               destruct m; [change (Ok ?a ≫= ?k) with (k a) in H; cbv beta in H|discriminate]
           end;
    try (injection H as <-; reflexivity).
  injection H as <-. discriminate Ht.
Qed.

Lemma coerceToPoints_shape (fc out : list (@json num)) :
  coerceToPoints fc = Ok out →
  Forall (λ y, ∃ geom q items,
            y = Feature geom q ∧ truthy geom = true ∧ truthy q = true
            ∧ prop geom "type" = JStr "Point"
            ∧ prop geom "coordinates" = JArr items ∧ some_not_number items = false) out.
Proof.
  apply rfilter_map_Forall. intros f y H.
  destruct (get f "geometry") as [g|] eqn:Eg; [|discriminate].
  change (Ok ?a ≫= ?k) with (k a) in H. cbv beta in H.
  destruct (toPointGeometry g) as [geom|] eqn:Ep; [|discriminate].
  change (Ok ?a ≫= ?k) with (k a) in H. cbv beta in H.
  destruct (truthy geom) eqn:Et; [|discriminate]. cbn [negb] in H.
  destruct (prop geom "coordinates") as [| | | | |items|] eqn:Ec; try discriminate.
  destruct (some_not_number items) eqn:Es; [discriminate|].
  injection H as <-. exists geom, (prop f "properties" ||| JObj []), items.
  split; [reflexivity|]. split; [exact Et|]. split.
  { unfold or_else. destruct (truthy (prop f "properties")) eqn:Eq; [exact Eq|reflexivity]. }
  split; [eapply toPointGeometry_point; eassumption|]. auto.
Qed.

Lemma rfilter_map_fixed {A} (f : A → result (option A)) xs :
  Forall (λ x, f x = Ok (Some x)) xs → rfilter_map f xs = Ok xs.
Proof.
  induction 1 as [|x xs Hx _ IH]; [reflexivity|].
  cbn [rfilter_map]. rewrite Hx, IH. reflexivity.
Qed.

(** X16.  [coerceToPoints] is idempotent: a collection it returns is
    left as it is by a second pass.  Its features are Point features
    with numeric coordinates and with a properties object. *)
Theorem coerceToPoints_idempotent (fc out : list (@json num)) :
  coerceToPoints fc = Ok out →
  coerceToPoints out = Ok out ∧ Forall point_geometry out.
Proof.
  intros H. apply coerceToPoints_shape in H. split.
  - apply rfilter_map_fixed. eapply Forall_impl; [exact H|].
    intros y (geom & q & items & -> & Hg & Hq & Ht & Hc & Hn).
    cbn [get Feature obj_get String.eqb Ascii.eqb Bool.eqb].
    change (Ok ?a ≫= ?k) with (k a). cbv beta.
    assert (Hp : toPointGeometry geom = Ok geom).
    { unfold toPointGeometry. rewrite Hg, Ht. reflexivity. }
    rewrite Hp. change (Ok ?a ≫= ?k) with (k a). cbv beta.
    rewrite Hg, Hc, Hn. cbn [negb].
    change (prop (Feature geom q) "properties") with q.
    now rewrite (or_else_truthy q (JObj []) Hq).
  - eapply Forall_impl; [exact H|].
    intros y (geom & q & items & -> & Hg & Hq & Ht & Hc & Hn). exact Ht.
Qed.








(** ** Classification and field detection *)

Lemma search_skip r (a rest : string) :
  (∀ p, Re.step r (p, rest) ≠ []) → ∀ prev, Re.search r prev (a +:+ rest) = true.
Proof.
  intros Hr. induction a as [|c a IH]; intros prev.
  - change ("" +:+ rest) with rest. specialize (Hr prev).
    destruct rest; cbn [Re.search]; destruct (Re.step r _); congruence.
  - rewrite append_cons. cbn [Re.search].
    destruct (Re.step r _); [apply IH|reflexivity].
Qed.

(** X18.  A text whose lower-case form contains "female" at the end of
    a word is classified as boys: the pattern for boys, tried first,
    finds "male" at a word end inside "female". *)
Theorem female_classified_boys (s a b : string) :
  Str.toLowerCase s = a +:+ "female" +:+ b →
  word_end b = true →
  guessGender (JStr s : @json num) = "boys".
Proof.
  intros Hs Hb. unfold guessGender.
  assert (Ht : truthy (JStr s : @json num) = true).
  { apply truthy_nonempty. intros ->. destruct a; discriminate. }
  rewrite Ht. cbn [negb ToString]. cbv zeta. rewrite Hs.
  assert (T : Re.test re_boys (a +:+ "female" +:+ b) = true); [|now rewrite T].
  unfold Re.test.
  change ("female" +:+ b) with ("fe" +:+ ("male" +:+ b)).
  rewrite <- append_assoc. apply search_skip. intros p.
  change ("male" +:+ b) with (String "m" (String "a" (String "l" (String "e" b)))).
  unfold re_boys. cbn. unfold Re.word_before, Re.word_after. cbn [fst snd].
  destruct b as [|c b]; cbn in *; [discriminate|].
  apply negb_true_iff in Hb. rewrite Hb. discriminate.
Qed.






(** ** Enrichment is idempotent *)

Lemma obj_set_same (q : list (string * @json num)) k v :
  k ∈ q.*1 → obj_get q k = v → obj_set q k v = q.
Proof.
  induction q as [|[k' v'] q IH]; cbn [fmap list_fmap obj_get obj_set fst].
  - intros H. inversion H.
  - intros Hin Hv. destruct (String.eqb k' k) eqn:E.
    + apply String.eqb_eq in E. now subst.
    + f_equal. apply IH; [|exact Hv].
      apply elem_of_cons in Hin as [->|Hin]; [|exact Hin].
      now rewrite String.eqb_refl in E.
Qed.

Lemma obj_set_key (q : list (string * @json num)) k v : k ∈ (obj_set q k v).*1.
Proof.
  induction q as [|[k' v'] q IH]; cbn [fmap list_fmap obj_set fst]; [left|].
  destruct (String.eqb k' k); [left|right; exact IH].
Qed.

Lemma obj_set_keeps (q : list (string * @json num)) k v k' :
  k' ∈ q.*1 → k' ∈ (obj_set q k v).*1.
Proof.
  induction q as [|[k0 v0] q IH]; cbn [fmap list_fmap obj_set fst].
  - intros H. inversion H.
  - intros H. destruct (String.eqb k0 k) eqn:E.
    + apply String.eqb_eq in E. subst k0.
      apply elem_of_cons in H as [->|H]; [left|right; exact H].
    + apply elem_of_cons in H as [->|H]; [left|right; now apply IH].
Qed.

Lemma or_null_cases (a : @json num) :
  (truthy a = true ∧ a ||| JNull = a) ∨ (truthy a = false ∧ a ||| JNull = JNull).
Proof. unfold or_else. destruct (truthy a); auto. Qed.

Lemma or_else_falsy (a b : @json num) : truthy a = false → a ||| b = b.
Proof. unfold or_else. now intros ->. Qed.

(** Evaluates [a || b] and [truthy a] where the context tells whether
    [a] is truthy. *)
Ltac or_chain :=
  repeat match goal with
         | H : truthy ?x = true |- context [?x ||| ?y] => rewrite (or_else_truthy x y H)
         | H : truthy ?x = false |- context [?x ||| ?y] => rewrite (or_else_falsy x y H)
         | |- context [JNull ||| ?y] => rewrite (or_else_falsy JNull y eq_refl)
         | H : truthy ?x = _ |- context [truthy ?x] => rewrite H
         | |- context [truthy JNull] => change (truthy JNull) with false
         end.

(** X20.  [enrichProperties] is idempotent on whole records: enriching
    an enriched record with the same table gives the same record, key
    for key and in the same order. *)
Theorem enrichProperties_idempotent (p : list (string * @json num)) (d2r : gmap string string) :
  enrichProperties (enrichProperties p d2r) d2r = enrichProperties p d2r.
Proof.
  set (q := enrichProperties p d2r).
  assert (Ko : "ownership" ∈ q.*1) by (do 3 apply obj_set_keeps; apply obj_set_key).
  assert (Kg : "gender" ∈ q.*1) by (do 2 apply obj_set_keeps; apply obj_set_key).
  assert (Kd : "district" ∈ q.*1) by (apply obj_set_keeps; apply obj_set_key).
  assert (Kr : "region" ∈ q.*1) by apply obj_set_key.
  assert (Ho : obj_get q "ownership" = JStr (guessOwnership (ownership_tag p)))
    by apply enrichProperties_ownership.
  assert (Hg : obj_get q "gender" = JStr (guessGender (gender_tag p)))
    by apply enrichProperties_gender'.
  assert (Hother : ∀ k, k ≠ "ownership" → k ≠ "gender" → k ≠ "district" → k ≠ "region" →
                        obj_get q k = obj_get p k).
  { intros k H1 H2 H3 H4. unfold q, enrichProperties. cbv zeta.
    now rewrite !obj_get_set_ne by congruence. }
  set (a := obj_get p "district"). set (b := obj_get p "addr:district").
  set (c := obj_get p "is_in:district"). set (d := obj_get p "admin2").
  set (e := obj_get p "ADM2_NAME"). set (f := obj_get p "subcounty").
  set (D := (a ||| b ||| c ||| d ||| e ||| f) ||| JNull).
  assert (Hd : obj_get q "district" = D).
  { unfold q, enrichProperties. cbv zeta. obj_simpl. reflexivity. }
  set (r0 := (obj_get p "region" ||| obj_get p "ADM1_NAME" ||| obj_get p "province")
             ||| JNull).
  set (T := table_get d2r (normalizeDistrictName D) ||| JNull).
  set (R := if negb (truthy r0) && truthy D then T else r0).
  assert (Hr : obj_get q "region" = R).
  { unfold q, enrichProperties. cbv zeta. obj_simpl. reflexivity. }
  assert (S1 : obj_set q "ownership" (JStr (guessOwnership (ownership_tag q))) = q).
  { apply obj_set_same; [exact Ko|]. rewrite Ho. f_equal. symmetry.
    unfold ownership_tag at 1. rewrite Ho.
    rewrite !(or_else_truthy (JStr (guessOwnership _)))
      by (apply truthy_nonempty, guessOwnership_nonempty).
    now rewrite guessOwnership_fixed. }
  assert (S2 : obj_set q "gender" (JStr (guessGender (gender_tag q))) = q).
  { apply obj_set_same; [exact Kg|]. rewrite Hg. f_equal. symmetry.
    unfold gender_tag at 1. rewrite Hg.
    rewrite !(or_else_truthy (JStr (guessGender _)))
      by (apply truthy_nonempty, guessGender_nonempty).
    now rewrite guessGender_fixed. }
  assert (E3 : (obj_get q "district" ||| obj_get q "addr:district"
                ||| obj_get q "is_in:district" ||| obj_get q "admin2"
                ||| obj_get q "ADM2_NAME" ||| obj_get q "subcounty") ||| JNull = D).
  { rewrite Hd, !Hother by discriminate. fold b c d e f. unfold D.
    destruct (truthy a) eqn:Ea, (truthy b) eqn:Eb, (truthy c) eqn:Ec,
      (truthy d) eqn:Ed, (truthy e) eqn:Ee, (truthy f) eqn:Ef;
      or_chain; reflexivity. }
  assert (S3 : obj_set q "district"
                 ((obj_get q "district" ||| obj_get q "addr:district"
                   ||| obj_get q "is_in:district" ||| obj_get q "admin2"
                   ||| obj_get q "ADM2_NAME" ||| obj_get q "subcounty") ||| JNull) = q).
  { apply obj_set_same; [exact Kd|]. now rewrite E3. }
  assert (E4 : (let region := (obj_get q "region" ||| obj_get q "ADM1_NAME"
                               ||| obj_get q "province") ||| JNull in
                if negb (truthy region) && truthy (obj_get q "district")
                then table_get d2r (normalizeDistrictName (obj_get q "district")) ||| JNull
                else region) = R).
  { cbv zeta. rewrite Hr, Hd, !Hother by discriminate. fold T.
    assert (HT : T = JNull ∨ truthy T = true).
    { unfold T. destruct (or_null_cases (table_get d2r (normalizeDistrictName D)))
        as [[H1 H2]|[H1 H2]]; rewrite H2; auto. }
    unfold R, r0. clearbody T D.
    set (r1 := obj_get p "region"). set (r2 := obj_get p "ADM1_NAME").
    set (r3 := obj_get p "province").
    destruct (truthy r1) eqn:E1, (truthy r2) eqn:E2, (truthy r3) eqn:E5,
      (truthy D) eqn:ED;
      or_chain; cbn [negb andb]; or_chain; cbn [negb andb]; try reflexivity;
      destruct HT as [->|HT]; or_chain; cbn [negb andb]; or_chain; reflexivity. }
  unfold enrichProperties at 1. cbv zeta in E4 |- *.
  unfold ownership_tag in S1. rewrite S1.
  unfold gender_tag in S2. rewrite S2, S3, E4.
  apply obj_set_same; [exact Kr|exact Hr].
Qed.

(** ** Front end *)

(** X21.  Toggling a value twice gives the set back; one toggle flips
    the membership of the value and of no other. *)
Theorem toggleSetValue_involution (current : gset string) (value : string) :
  toggleSetValue (toggleSetValue current value) value = current
  ∧ (value ∈ toggleSetValue current value ↔ value ∉ current)
  ∧ ∀ other, other ≠ value →
      (other ∈ toggleSetValue current value ↔ other ∈ current).
Proof.
  unfold toggleSetValue. destruct (bool_decide (value ∈ current)) eqn:E.
  - apply bool_decide_eq_true in E.
    assert (N : value ∉ current ∖ {[value]}).
    { rewrite elem_of_difference, elem_of_singleton. tauto. }
    rewrite (bool_decide_eq_false_2 _ N).
    split; [|split].
    + apply set_eq. intros x.
      rewrite elem_of_union, elem_of_difference, elem_of_singleton.
      destruct (decide (x = value)) as [->|]; tauto.
    + tauto.
    + intros other Ho. rewrite elem_of_difference, elem_of_singleton. tauto.
  - apply bool_decide_eq_false in E.
    assert (Y : value ∈ current ∪ {[value]}).
    { rewrite elem_of_union, elem_of_singleton. tauto. }
    rewrite (bool_decide_eq_true_2 _ Y).
    split; [|split].
    + apply set_eq. intros x.
      rewrite elem_of_difference, elem_of_union, elem_of_singleton.
      destruct (decide (x = value)) as [->|]; tauto.
    + tauto.
    + intros other Ho. rewrite elem_of_union, elem_of_singleton. tauto.
Qed.

Lemma rfilter_map_sublist {A} (f : A → result bool) xs ys :
  rfilter_map (λ x, keep ← f x; Ok (if (keep : bool) then Some x else None)) xs = Ok ys →
  ys `sublist_of` xs ∧ Forall (λ y, f y = Ok true) ys.
Proof.
  revert ys. induction xs as [|x xs IH]; intros ys; cbn [rfilter_map].
  - intros [= <-]. split; constructor.
  - destruct (f x) as [keep|e] eqn:Ex; [|discriminate].
    change (Ok ?a ≫= ?k) with (k a). cbv beta.
    destruct (rfilter_map _ xs) as [ys'|e]; [|discriminate].
    change (Ok ?a ≫= ?k) with (k a). cbv beta.
    destruct (IH ys' eq_refl) as [IH1 IH2].
    intros [= <-]. destruct keep.
    + split; [now constructor|]. constructor; assumption.
    + split; [now constructor|]. exact IH2.
Qed.

Lemma set_has_true (selected : gset string) (v : @json num) :
  set_has selected v = true → ∃ s, v = JStr s ∧ s ∈ selected.
Proof.
  destruct v; try discriminate. cbn. intros H. apply bool_decide_eq_true in H. eauto.
Qed.

Lemma school_passes_true q regions ownerships genders (f : @json num) :
  school_passes q regions ownerships genders f = Ok true →
  let p := prop f "properties" in
  selected_ok regions (prop p "region")
  ∧ selected_ok ownerships (prop p "ownership")
  ∧ selected_ok genders (prop p "gender")
  ∧ search_ok q (prop p "name").
Proof.
  unfold school_passes.
  assert (G : ∀ (sel : gset string) (p : @json num) k (rest : result bool),
             ((out ← (if bool_decide (sel ≠ ∅)
                      then (v ← get p k; Ok (negb (set_has sel v))) else Ok false);
               if (out : bool) then Ok false else rest) = Ok true) →
             selected_ok sel (prop p k) ∧ rest = Ok true).
  { intros sel p k rest. destruct (bool_decide (sel ≠ ∅)) eqn:E.
    - destruct (get p k) as [v|e] eqn:Eg; [|discriminate].
      change (Ok ?a ≫= ?k) with (k a). cbv beta.
      change (Ok ?a ≫= ?k) with (k a). cbv beta.
      destruct (set_has sel v) eqn:Es; [|discriminate]. cbn [negb].
      intros H. split; [|exact H]. right.
      assert (v = prop p k) as <-.
      { destruct p; try discriminate; cbn in Eg |- *; congruence. }
      now apply set_has_true.
    - change (Ok ?a ≫= ?k) with (k a). cbv beta. intros H. split; [|exact H].
      left. apply bool_decide_eq_false in E. now apply dec_stable. }
  destruct (get f "properties") as [p|e] eqn:Ep; [|discriminate].
  change (Ok ?a ≫= ?k) with (k a). cbv beta.
  assert (p = prop f "properties") as <-.
  { destruct f; try discriminate; cbn in Ep |- *; congruence. }
  intros H. apply G in H as [H1 H]. apply G in H as [H2 H]. apply G in H as [H3 H].
  cbv zeta. split; [exact H1|]. split; [exact H2|]. split; [exact H3|].
  destruct (Str.is_empty q) eqn:Eq.
  { left. destruct q; [reflexivity|discriminate]. }
  right. destruct (get p "name") as [v|e] eqn:En; [|discriminate].
  change (Ok ?a ≫= ?k) with (k a) in H. cbv beta in H.
  assert (v = prop p "name") as <-.
  { destruct p; try discriminate; cbn in En |- *; congruence. }
  destruct (v ||| JStr "") as [| | | |s| |]; try discriminate.
  cbn in H. exists s. split; [reflexivity|]. now injection H.
Qed.

(** X22.  The filtered schools are a sub-sequence of the loaded
    features, in their order, and each of them passes every filter: for
    region, ownership and gender nothing is selected or its property is
    a selected text, and the trimmed lower-cased query is empty or
    contained in its lower-cased name. *)
Theorem filteredSchools_sound (features out : list (@json num)) (searchQuery : string)
  (selectedRegions selectedOwnerships selectedGenders : gset string) :
  filteredSchools features searchQuery selectedRegions selectedOwnerships selectedGenders
  = Ok out →
  out `sublist_of` features
  ∧ Forall (λ f,
              let p := prop f "properties" in
              selected_ok selectedRegions (prop p "region")
              ∧ selected_ok selectedOwnerships (prop p "ownership")
              ∧ selected_ok selectedGenders (prop p "gender")
              ∧ search_ok (Str.toLowerCase (Str.trim searchQuery)) (prop p "name")) out.
Proof.
  unfold filteredSchools. cbv zeta. intros H.
  apply (rfilter_map_sublist
           (school_passes (Str.toLowerCase (Str.trim searchQuery))
              selectedRegions selectedOwnerships selectedGenders)) in H as [H1 H2].
  split; [exact H1|]. eapply Forall_impl; [exact H2|].
  intros f. apply school_passes_true.
Qed.

(** X23.  With nothing selected and a blank query every loaded feature
    is kept, provided no feature is null. *)
Theorem filteredSchools_no_filter (features : list (@json num)) (searchQuery : string) :
  Str.trim searchQuery = "" →
  Forall (λ f, is_nullish f = false) features →
  filteredSchools features searchQuery ∅ ∅ ∅ = Ok features.
Proof.
  intros Hq Hf. unfold filteredSchools. cbv zeta. rewrite Hq.
  induction Hf as [|f fs Hn _ IH]; [reflexivity|].
  cbn [rfilter_map]. rewrite IH. unfold school_passes.
  rewrite (get_not_nullish _ _ Hn). reflexivity.
Qed.

(** X24.  The label shown for the map style names the choice
    [getMapStyle] makes: an explicit style URL, else a MapTiler key,
    else the demo style; the style URL is never empty. *)
Theorem style_label_agrees (env : string → @json num) :
  getMapStyle env ≠ ""
  ∧ ((getStyleLabel env = "Custom style URL"
      ∧ getMapStyle env = Str.trim (ToString (env "NEXT_PUBLIC_MAP_STYLE_URL")))
     ∨ (getStyleLabel env = "MapTiler Streets (API key)"
        ∧ configured (env "NEXT_PUBLIC_MAP_STYLE_URL") = false
        ∧ getMapStyle env
          = "https://api.maptiler.com/maps/streets-v2/style.json?key="
            +:+ Str.trim (ToString (env "NEXT_PUBLIC_MAPTILER_API_KEY")))
     ∨ (getStyleLabel env = "MapLibre Demo style"
        ∧ configured (env "NEXT_PUBLIC_MAP_STYLE_URL") = false
        ∧ configured (env "NEXT_PUBLIC_MAPTILER_API_KEY") = false
        ∧ getMapStyle env = "https://demotiles.maplibre.org/style.json")).
Proof.
  unfold getMapStyle, getStyleLabel. cbv zeta.
  fold (configured (env "NEXT_PUBLIC_MAP_STYLE_URL")).
  fold (configured (env "NEXT_PUBLIC_MAPTILER_API_KEY")).
  destruct (configured (env "NEXT_PUBLIC_MAP_STYLE_URL")) eqn:E1.
  - split; [|left; auto].
    unfold configured in E1. apply andb_true_iff in E1 as [_ E1].
    apply negb_true_iff, Str_is_empty_false in E1. exact E1.
  - destruct (configured (env "NEXT_PUBLIC_MAPTILER_API_KEY")) eqn:E2.
    + split; [discriminate|]. right. left. auto.
    + split; [discriminate|]. right. right. auto.
Qed.

(** ** Normalised keys *)

Lemma key_char_plain c :
  key_char c = true → Chr.is_space c = false ∧ Chr.toLowerCase c = c.
Proof.
  destruct c as [[] [] [] [] [] [] [] []]; vm_compute; intros H;
    (discriminate H || (split; reflexivity)).
Qed.

(** A global replacement leaves a text alone in which no match starts. *)
Lemma replace_all_untouched r by_ (good : ascii → bool) s :
  (∀ prev c rest, good c = true → Re.step r (prev, String c rest) = []) →
  (∀ prev, Re.step r (prev, "") = []) →
  all_chars good s = true → Re.replace_all r by_ s = s.
Proof.
  intros Hc He. unfold Re.replace_all. generalize (@None ascii).
  induction s as [|c s IH]; intros prev Hs.
  - cbn. now rewrite He.
  - cbn [all_chars] in Hs. apply andb_true_iff in Hs as [Hg Hs].
    cbn. rewrite (Hc _ _ _ Hg). f_equal. now apply IH.
Qed.

Lemma Str_toLowerCase_plain s :
  all_chars key_char s = true → Str.toLowerCase s = s.
Proof.
  induction s as [|c s IH]; [reflexivity|]. cbn [all_chars]. intros H.
  apply andb_true_iff in H as [Hc Hs]. unfold Str.toLowerCase in *. cbn [Str.map].
  rewrite IH by exact Hs. now rewrite (proj2 (key_char_plain c Hc)).
Qed.

Lemma normalizeKey_chars (s : @json num) : all_chars key_char (normalizeKey s) = true.
Proof.
  unfold normalizeKey. cbv zeta.
  apply (replace_all_unmatched _ "" key_char); [| |reflexivity].
  - intros prev c rest. cbn [Re.step snd]. unfold key_char.
    destruct (Chr.is_lower_az c || Chr.is_digit c || Ascii.eqb c "_");
      [reflexivity|discriminate].
  - intros prev rest p1 rest1 tl. cbn [Re.step snd].
    destruct rest as [|c rest']; [discriminate|].
    destruct (negb _); [|discriminate]. intros [= _ <- _]. cbn. lia.
Qed.

(** X25.  A normalised key consists of the letters a to z, digits and
    underscores only, and [normalizeKey] is idempotent: normalising a
    normalised key gives it back. *)
Theorem normalizeKey_idempotent (s : @json num) :
  all_chars key_char (normalizeKey s) = true
  ∧ normalizeKey (JStr (normalizeKey s)) = normalizeKey s.
Proof.
  split; [apply normalizeKey_chars|].
  pose proof (normalizeKey_chars s) as H. set (k := normalizeKey s) in *. clearbody k.
  unfold normalizeKey. cbv zeta.
  assert (E : ToString (JStr k ||| JStr "" : @json num) = k).
  { unfold or_else. cbn [truthy]. destruct k; reflexivity. }
  rewrite E, (Str_toLowerCase_plain k H).
  rewrite (replace_all_untouched (Re.PlusSet Chr.is_space) "" key_char k); [| | |exact H].
  - apply (replace_all_untouched _ "" key_char); [| |exact H].
    + intros prev c rest Hc. cbn [Re.step snd]. unfold key_char in Hc. now rewrite Hc.
    + reflexivity.
  - intros prev c rest Hc. cbn [Re.step snd Re.run].
    now rewrite (proj1 (key_char_plain c Hc)).
  - reflexivity.
Qed.

(** ** Features from CSV rows *)

Lemma obj_set_keys_incl (p : list (string * @json num)) k v k' :
  k' ∈ (obj_set p k v).*1 → k' = k ∨ k' ∈ p.*1.
Proof.
  induction p as [|[k0 v0] p IH]; cbn [fmap list_fmap obj_set fst].
  - intros H. apply list_elem_of_singleton in H. auto.
  - destruct (String.eqb k0 k) eqn:E; cbn [fmap list_fmap fst]; intros H.
    + apply elem_of_cons in H as [->|H]; [auto|]. right. now right.
    + apply elem_of_cons in H as [->|H]; [right; left|].
      destruct (IH H) as [->|H']; [auto|]. right. now right.
Qed.

Lemma omap_length_le {A B} (f : A → option B) xs : length (omap f xs) ≤ length xs.
Proof.
  induction xs as [|x xs IH]; [reflexivity|]. cbn [omap list_omap].
  destruct (f x); cbn [length]; lia.
Qed.

(** X26.  A feature [rowsToGeoJSON] makes from a row is a Point feature
    whose properties are among name, ownership, gender and district:
    every other column of the row is dropped.  There are at most as
    many features as rows. *)
Theorem rowsToGeoJSON_properties (rows : list (list (string * @json num))) out :
  rowsToGeoJSON rows = Ok out →
  length out ≤ length rows
  ∧ Forall (λ f, point_geometry f
                 ∧ ∀ k, k ∈ (spread (prop f "properties")).*1 → k ∈ csv_property_names) out.
Proof.
  unfold rowsToGeoJSON. destruct rows as [|first rest]; [intros [= <-]; split; constructor|].
  cbv zeta. destruct (_ || _); [discriminate|]. intros H.
  apply (f_equal (λ r, match r with Ok x => x | Throw _ => [] end)) in H.
  cbv beta iota in H. rewrite <- H. split; [apply omap_length_le|].
  apply omap_Forall. clear H. intros r y H.
  destruct (_ || _); [discriminate|]. injection H as <-. split; [reflexivity|].
  intros k. change (prop (Feature ?g ?q) "properties") with q. cbn [spread].
  unfold csv_property_names.
  repeat match goal with
         | |- context [if ?b then _ else _] => destruct b
         end;
    intros Hk;
    repeat match type of Hk with
           | _ ∈ (obj_set _ _ _).*1 => apply obj_set_keys_incl in Hk as [->|Hk]
           end;
    try (apply (bool_decide_unpack _); vm_compute; exact I);
    cbn [fmap list_fmap fst] in Hk;
    repeat match type of Hk with
           | _ ∈ _ :: _ => apply elem_of_cons in Hk as [->|Hk]
           end;
    try (apply (bool_decide_unpack _); vm_compute; exact I);
    inversion Hk.
Qed.

End Properties.

(** * The properties on the example inputs *)

(** ** Retry coordinator *)

Example rotation_wraps :
  endpoint_of (num:=refnum) endpoints3 4 = endpoint_of endpoints3 1
  ∧ endpoint_of (num:=refnum) endpoints3 4 = JStr "https://a.example/api".
Proof. split; reflexivity. Qed.

(** C1 on three endpoints and six attempts: a network that refuses
    every request, and one that answers at the third attempt. *)
Lemma postJSONWithRetry_contract_witness :
  postJSONWithRetry net_down endpoints3 6
  = (rotation endpoints3 6, Throw (Error "connect ECONNREFUSED"))
  ∧ postJSONWithRetry net_third endpoints3 6
    = (rotation endpoints3 3, Ok (JObj [("elements", JArr [])])).
Proof.
  split.
  - destruct (postJSONWithRetry_contract net_down endpoints3 6) as [Hfail _].
    + repeat constructor.
    + destruct Hfail as (e & He & Hrun & _).
      * intros i _. exists (Error "connect ECONNREFUSED"). reflexivity.
      * rewrite Hrun. injection He as <-. reflexivity.
  - destruct (postJSONWithRetry_contract net_third endpoints3 6) as [_ Hok].
    + repeat constructor.
    + apply (Hok 3).
      * split; repeat constructor.
      * intros i [H1 H2]. destruct i as [|[|[|i]]].
        -- inversion H1.
        -- eexists. reflexivity.
        -- eexists. reflexivity.
        -- exfalso. lia.
      * reflexivity.
Defined.

(** ** Sourcing *)

(** C2 (amended) on a run that finds a local CSV file, and on one whose
    local JSON file does not parse. *)
Lemma sourcing_order_witness :
  main sample_parse world_local_csv ∅
  = ([ReadFile "official_secondary_schools.csv"], Ok school_output)
  ∧ main sample_parse world_shadowed ∅
    = ([ReadFile "official_secondary_schools.json";
        Fetch "https://overpass-api.de/api/interpreter"],
       Ok {| features := []; meta_source := "overpass" |}).
Proof.
  split.
  - destruct (sourcing_order sample_parse world_local_csv ∅) as (_ & _ & Hofficial & _).
    destruct (Hofficial "official-local" (features school_output)) as [Hrun _].
    + vm_compute. reflexivity.
    + rewrite Hrun. vm_compute. reflexivity.
  - destruct (sourcing_order sample_parse world_shadowed ∅) as (_ & _ & _ & Hfallback & _).
    rewrite Hfallback.
    + vm_compute. reflexivity.
    + right. eexists. vm_compute. reflexivity.
Defined.

(** C2 as the specification states it fails where a local file exists
    but does not parse: the remote dataset would deliver a school, yet
    the run goes to Overpass without asking for it. *)
Lemma local_failure_skips_remote :
  (main sample_parse world_shadowed ∅).2 = Ok {| features := []; meta_source := "overpass" |}
  ∧ (∃ f, first_usable sample_parse world_shadowed ∅
          = Some {| features := [f]; meta_source := "official-remote" |})
  ∧ ¬ follows_state_order sample_parse world_shadowed ∅.
Proof.
  split; [vm_compute; reflexivity|]. split; [eexists; vm_compute; reflexivity|].
  unfold follows_state_order. intros H. vm_compute in H. discriminate H.
Qed.

(** A local file that parses to an empty collection ends the search
    as well. *)
Example empty_local_collection_wins :
  main sample_parse
    {| file name := if String.eqb name "official_secondary_schools.csv"
                    then Some "Name,Lat,Lng" else None;
       getenv := getenv world_shadowed;
       fetchText := sample_fetch |} ∅
  = ([ReadFile "official_secondary_schools.csv"],
     Ok {| features := []; meta_source := "official-local" |}).
Proof. vm_compute. reflexivity. Qed.

(** ** Fiber geometries *)

(** C3 on a relation with two member ways of two and three vertices. *)
Lemma relation_geometry_witness :
  ∃ f, buildFeatureCollection [relation_two_ways] = Ok [f]
       ∧ prop f "geometry"
         = MultiLineString
             [JArr [JArr [dec "32.5"; dec "0.3"]; JArr [dec "32.6"; dec "0.4"]];
              JArr [JArr [dec "32.6"; dec "0.4"]; JArr [dec "32.7"; dec "0.5"];
                    JArr [dec "32.8"; dec "0.6"]]].
Proof.
  assert (H : osm_relation relation_two_ways).
  { split; [reflexivity|]. split; vm_compute; repeat constructor. }
  pose proof (relation_geometry relation_two_ways H) as R.
  hnf in R. destruct R as (f & _ & Hb & Hg).
  exists f. split; [exact Hb|]. rewrite Hg. vm_compute. reflexivity.
Defined.

(** C4.  The fiber script emits a way without looking at the type of
    its coordinates: a way whose vertex carries [lon] and [lat] as text
    becomes a feature whose coordinate leaves are not numbers, where
    the node branch of the same function and the schools script would
    have skipped the record. *)
Theorem way_text_vertex_emitted :
  ∃ f, buildFeatureCollection [way_text_vertex] = Ok [f]
       ∧ prop f "geometry" = LineString (JArr [JArr [JStr "32.5"; JStr "0.3"]])
       ∧ numeric_geometry f = false.
Proof. eexists. split; [vm_compute; reflexivity|]. split; reflexivity. Qed.

(** ** Centroids *)

(** C6 (amended) on a LineString with one element that is no position,
    and on a MultiPoint. *)
Lemma non_point_collapse_witness :
  coerceToPoints [linestring_feature]
  = Ok [Feature (Point (JArr [n_ 2; n_ 4])) (JObj [("name", JStr "Hill School")])]
  ∧ toPointGeometry multipoint_sample = Ok (Point (JArr [n_ 0; n_ 0])).
Proof.
  split.
  - edestruct (non_point_collapse linestring_feature _ _ [] eq_refl eq_refl) as [Hd _].
    destruct (Hd 0 eq_refl) as [_ Hc]. rewrite Hc. vm_compute. reflexivity.
  - edestruct (non_point_collapse (Feature multipoint_sample JNull) multipoint_sample _ []
                 eq_refl eq_refl) as [_ Hm].
    exact (Hm eq_refl).
Defined.

(** C6 as the specification states it fails on a MultiPoint, which is
    not collapsed to the centroid of its positions. *)
Lemma multipoint_not_centroid :
  toPointGeometry multipoint_sample = Ok (Point (JArr [n_ 0; n_ 0]))
  ∧ centroid_of_all_pairs multipoint_sample = Point (JArr [n_ 2; n_ 4])
  ∧ toPointGeometry multipoint_sample ≠ Ok (centroid_of_all_pairs multipoint_sample).
Proof.
  split; [vm_compute; reflexivity|]. split; [vm_compute; reflexivity|].
  vm_compute. discriminate.
Qed.

(** ** Classification and regions *)


(** C8 (amended) on two spellings of Gulu. *)
Lemma region_invariant_witness :
  region_of table_gulu (with_district [("name", JStr "Gulu High")] "GULU District.")
  = region_of (num:=refnum) table_gulu (with_district [("name", JStr "Gulu High")] " gulu").
Proof.
  apply (region_invariant table_gulu [("name", JStr "Gulu High")]).
  - discriminate.
  - discriminate.
  - vm_compute. reflexivity.
Defined.

Example region_resolved :
  region_of table_gulu (with_district [("name", JStr "Gulu High")] "GULU District.")
  = (JStr "Northern" : @json refnum).
Proof. vm_compute. reflexivity. Qed.

(** C8 as the specification states it fails on the empty text and a
    blank text: they have the same normalised form, but only the blank
    one is looked up. *)
Lemma blank_district_differs :
  normalizeDistrictName (JStr "" : @json refnum) = normalizeDistrictName (JStr " " : @json refnum)
  ∧ region_of table_blank (with_district [] "") = (JNull : @json refnum)
  ∧ region_of table_blank (with_district [] " ") = (JStr "Central" : @json refnum)
  ∧ region_of (num:=refnum) table_blank (with_district [] "")
    ≠ region_of table_blank (with_district [] " ").
Proof.
  split; [reflexivity|]. split; [vm_compute; reflexivity|].
  split; [vm_compute; reflexivity|]. vm_compute. discriminate.
Qed.

(** ** The CSV reader *)



(** ** The building blocks on small inputs *)

Example replace_all_literal :
  Re.replace_all (Re.lit "ab") "-" "xabab.aab" = "x--.a-".
Proof. reflexivity. Qed.

Example replace_all_spaces :
  Re.replace_all (Re.PlusSet Chr.is_space) " " " a   b  " = " a b ".
Proof. reflexivity. Qed.

Example match_count_commas : Re.match_count (Re.lit ",") "a,b,,c" = 3.
Proof. reflexivity. Qed.

Example split_commas : Str.split "," "a,b,,c" = ["a"; "b"; ""; "c"].
Proof. reflexivity. Qed.

Example trim_both_ends : Str.trim "  a b  " = "a b".
Proof. reflexivity. Qed.

Example normalizeDistrictName_suffix :
  normalizeDistrictName (JStr "Kampala District" : @json refnum) = "kampala".
Proof. reflexivity. Qed.

Example normalizeDistrictName_spaces :
  normalizeDistrictName (JStr "  kampala " : @json refnum) = "kampala".
Proof. reflexivity. Qed.

Example normalizeDistrictName_punctuation :
  normalizeDistrictName (JStr "Districts of St. Mary's-District 9" : @json refnum)
  = "districts of st marys".
Proof. reflexivity. Qed.

Example guessOwnership_government :
  guessOwnership (JStr "Government Aided" : @json refnum) = "government".
Proof. reflexivity. Qed.

Example guessOwnership_passthrough :
  guessOwnership (JStr "Community" : @json refnum) = "community".
Proof. reflexivity. Qed.

Example guessOwnership_number : guessOwnership (n_ 7) = "7".
Proof. reflexivity. Qed.

Example guessGender_mixed : guessGender (JStr "Co-Ed" : @json refnum) = "mixed".
Proof. reflexivity. Qed.

Example guessGender_female : guessGender (JStr "Female" : @json refnum) = "boys".
Proof. reflexivity. Qed.

Example splitLine_quoted :
  splitLine "," (quoted ("a,b" +:+ str1 DQUOTE +:+ str1 DQUOTE +:+ "c") +:+ ",d")
  = ["a,b" +:+ str1 DQUOTE +:+ "c"; "d"].
Proof. reflexivity. Qed.

Example parseCSV_ragged :
  parseCSV (num:=refnum) csv_ragged
  = [[("Name", JStr "A"); ("Lat", JStr "1"); ("col_2", JStr ""); ("Lng", JStr "")];
     [("Name", JStr "B"); ("Lat", JStr "2"); ("col_2", JStr "x"); ("Lng", JStr "3")]].
Proof. reflexivity. Qed.

Example toNumber_decimal : toNumber (JStr " 32.5 ") = dec "32.5".
Proof. reflexivity. Qed.

Example toNumber_text : toNumber (JStr "n/a" : @json refnum) = JNull.
Proof. reflexivity. Qed.

(** ** Examples for the further properties *)

Lemma splitLine_join_roundtrip_witness :
  all_chars not_quote "A,1,,x" = true
  ∧ Str.join (str1 ",") (splitLine (str1 ",") "A,1,,x") = "A,1,,x".
Proof.
  split; [reflexivity|].
  apply (splitLine_join_roundtrip "," "A,1,,x"). reflexivity.
Defined.

Lemma splitLine_quoted_field_witness :
  splitLine (str1 ",") (quoted (csv_escape ("a,b" +:+ str1 DQUOTE +:+ "c"))) =
    ["a,b" +:+ str1 DQUOTE +:+ "c"]
  ∧ splitLine (str1 ",")
      (quoted (csv_escape ("a,b" +:+ str1 DQUOTE +:+ "c")) +:+ str1 "," +:+ "d") =
    ("a,b" +:+ str1 DQUOTE +:+ "c") :: splitLine (str1 ",") "d".
Proof.
  apply (splitLine_quoted_field "," ("a,b" +:+ str1 DQUOTE +:+ "c") "d").
  discriminate.
Defined.


Lemma region_table_keys_witness :
  buildDistrictToRegionMap regions_doc = Ok regions_table
  ∧ is_Some (regions_table !! "kitgum")
  ∧ all_chars district_char "kitgum" = true ∧ Str.trim "kitgum" = "kitgum".
Proof.
  assert (H : buildDistrictToRegionMap regions_doc = Ok regions_table)
    by (vm_compute; reflexivity).
  assert (K : is_Some (regions_table !! "kitgum")) by (exists "Northern"; vm_compute; reflexivity).
  split; [exact H|]. split; [exact K|].
  exact (region_table_keys regions_doc regions_table "kitgum" H K).
Defined.


Lemma regions_file_fatal_witness :
  file world_null_region "regions.json" = Some regions_null_text
  ∧ main_with_regions regions_parse world_null_region
    = ([ReadFile "regions.json"], Throw TypeError).
Proof.
  split; [reflexivity|].
  pose proof (regions_file_fatal regions_parse world_null_region regions_null_text eq_refl) as H.
  change (regions_parse regions_null_text)
    with (Some (JObj [("regions", JArr [JNull])] : @json refnum)) in H.
  apply (proj2 H [JNull]); [reflexivity|]. left. reflexivity.
Defined.

Lemma buildFeatureCollection_features_witness :
  ∃ out, buildFeatureCollection fiber_elements = Ok out
         ∧ Forall fiber_feature out ∧ length out ≤ length fiber_elements.
Proof.
  eexists. split; [vm_compute; reflexivity|].
  apply buildFeatureCollection_features. vm_compute. reflexivity.
Defined.

Lemma way_feature_witness :
  ∃ f, elementToGeoJSONFeature way_text_vertex = Ok f
       ∧ prop f "type" = JStr "Feature"
       ∧ prop f "id" = JStr ("way/" +:+ ToString (prop way_text_vertex "id"))
       ∧ prop f "geometry"
         = LineString (JArr (vertex_pair <$> [JObj [("lat", JStr "0.3"); ("lon", JStr "32.5")]]))
       ∧ length (array_items (prop (prop f "geometry") "coordinates")) = 1.
Proof.
  apply (way_feature way_text_vertex [JObj [("lat", JStr "0.3"); ("lon", JStr "32.5")]]);
    [reflexivity|reflexivity|].
  constructor; [reflexivity|constructor].
Defined.

Lemma node_feature_witness :
  ∃ f, elementToGeoJSONFeature node_exchange = Ok f
       ∧ truthy f = is_number (prop node_exchange "lon") && is_number (prop node_exchange "lat")
       ∧ (truthy f = true →
          prop f "geometry" = Point (JArr [prop node_exchange "lon"; prop node_exchange "lat"])).
Proof. apply (node_feature node_exchange). reflexivity. Defined.

Lemma buildFeatureCollection_null_element_witness :
  buildFeatureCollection [node_exchange; JNull] = Throw TypeError.
Proof.
  apply (buildFeatureCollection_null_element [node_exchange; JNull]).
  right. left. reflexivity.
Defined.

Lemma postJSONWithRetry_payload_witness :
  ∃ k res,
    1 ≤ k ≤ 6
    ∧ (postJSONWithRetry net_third endpoints3 6).1 = rotation endpoints3 k
    ∧ net_third k (endpoint_of endpoints3 k) = Ok res
    ∧ ok res = true
    ∧ body_json res = Ok (JObj [("elements", JArr [])])
    ∧ truthy (JObj [("elements", JArr [])] : @json refnum)
      && is_object (JObj [("elements", JArr [])] : @json refnum)
      && truthy (prop (JObj [("elements", JArr [])] : @json refnum) "remark") = false.
Proof.
  apply (postJSONWithRetry_payload net_third endpoints3 6 (JObj [("elements", JArr [])])).
  reflexivity.
Defined.

Lemma coerceToPoints_idempotent_witness :
  ∃ out, coerceToPoints [linestring_feature] = Ok out
         ∧ coerceToPoints out = Ok out ∧ Forall point_geometry out.
Proof.
  eexists. split; [vm_compute; reflexivity|].
  apply (coerceToPoints_idempotent [linestring_feature]). vm_compute. reflexivity.
Defined.


Lemma female_classified_boys_witness :
  guessGender (JStr "Female only" : @json refnum) = "boys".
Proof.
  apply (female_classified_boys "Female only" "" " only"); reflexivity.
Defined.

Lemma filteredSchools_sound_witness :
  filteredSchools (features school_output) " Mary " ∅ {["government"]} ∅
  = Ok (features school_output)
  ∧ features school_output `sublist_of` features school_output
  ∧ Forall (λ f,
              let p := prop f "properties" in
              selected_ok ∅ (prop p "region")
              ∧ selected_ok {["government"]} (prop p "ownership")
              ∧ selected_ok ∅ (prop p "gender")
              ∧ search_ok (Str.toLowerCase (Str.trim " Mary ")) (prop p "name"))
      (features school_output).
Proof.
  assert (H : filteredSchools (features school_output) " Mary " ∅ {["government"]} ∅
              = Ok (features school_output)) by (vm_compute; reflexivity).
  split; [exact H|].
  exact (filteredSchools_sound (features school_output) (features school_output)
           " Mary " ∅ {["government"]} ∅ H).
Defined.

Lemma filteredSchools_no_filter_witness :
  filteredSchools (features school_output) "  " ∅ ∅ ∅ = Ok (features school_output).
Proof.
  apply (filteredSchools_no_filter (features school_output) "  "); [reflexivity|].
  constructor; [reflexivity|constructor].
Defined.

Lemma rowsToGeoJSON_properties_witness :
  ∃ out, rowsToGeoJSON (parseCSV (num:=refnum) csv_school) = Ok out
         ∧ length out ≤ length (parseCSV (num:=refnum) csv_school)
         ∧ Forall (λ f, point_geometry f
                        ∧ ∀ k, k ∈ (spread (prop f "properties")).*1 → k ∈ csv_property_names)
             out.
Proof.
  eexists. split; [vm_compute; reflexivity|].
  apply (rowsToGeoJSON_properties (parseCSV csv_school)). vm_compute. reflexivity.
Defined.
